(** * GreenLane: the telemetry ingestion gateway and the pricing oracle

    A shallow embedding of [services/ingestion/main.go] (the gRPC
    ingestion gateway) and of the mock grid service's [handlePricing],
    with the properties the specification states about them.

    Conventions.
    - A Go [string] is a sequence of bytes: [string] of the Standard
      Library.
    - A Go [float64] is an IEEE 754 binary64 value: [spec_float] with
      precision 53 and maximal exponent 1024, and the operations of
      [SpecFloat] at these parameters.
    - A Go [int64] that the code only stores and prints is a [Z].
    - A Go [error] is [option error]: [None] is [nil].
    - The external collaborators (the stream transport, Redis, the Kafka
      writer, the clock) are a [World] threaded through a state monad; the
      outcome of every call to a collaborator is an input of the model. *)

From Stdlib Require Import ZArith NArith List String Ascii Bool Lia.
From Stdlib Require Import SpecFloat DecimalString DecimalN DecimalFacts.
From Stdlib Require DecimalZ.
From stdpp Require Import base option gmap strings.

Local Open Scope Z_scope.

(** Concatenation of strings computes on a literal first operand. *)
Arguments String.append !s1 s2 : simpl nomatch.

(* ================================================================== *)
(** * Go values *)
(* ================================================================== *)

Module Go.

(** ** float64 *)

Definition prec : Z := 53.
Definition emax : Z := 1024.

Definition float64 : Type := spec_float.

(** Conversion of an integer constant or an [int] to [float64]. *)
Definition of_Z (z : Z) : float64 :=
  binary_normalize prec emax z 0 false.

(** A decimal constant [n / 10^k], rounded once to the nearest
    [float64], as the Go compiler converts a decimal literal that is used
    as a [float64]. *)
Definition of_decimal (n : Z) (k : nat) : float64 :=
  SFdiv prec emax (of_Z n) (of_Z (10 ^ Z.of_nat k)).

Definition fadd : float64 -> float64 -> float64 := SFadd prec emax.
Definition fsub : float64 -> float64 -> float64 := SFsub prec emax.
Definition fmul : float64 -> float64 -> float64 := SFmul prec emax.
Definition fdiv : float64 -> float64 -> float64 := SFdiv prec emax.

(** [x > y], [x < y] and [x <= y] on [float64]: false when either side
    is NaN. *)
Definition fgt (x y : float64) : bool := SFltb y x.
Definition flt (x y : float64) : bool := SFltb x y.
Definition fle (x y : float64) : bool := SFleb x y.

Definition is_finite (x : float64) : bool :=
  match x with
  | S754_zero _ | S754_finite _ _ _ => true
  | S754_infinity _ | S754_nan => false
  end.

(** ** error *)

(** The gRPC status codes ([google.golang.org/grpc/codes]). *)
Inductive Code : Type :=
| OK | Canceled | Unknown | InvalidArgument | DeadlineExceeded | NotFound
| AlreadyExists | PermissionDenied | ResourceExhausted | FailedPrecondition
| Aborted | OutOfRange | Unimplemented | Internal | Unavailable | DataLoss
| Unauthenticated.

Definition Code_String (c : Code) : string :=
  match c with
  | OK => "OK" | Canceled => "Canceled" | Unknown => "Unknown"
  | InvalidArgument => "InvalidArgument"
  | DeadlineExceeded => "DeadlineExceeded" | NotFound => "NotFound"
  | AlreadyExists => "AlreadyExists"
  | PermissionDenied => "PermissionDenied"
  | ResourceExhausted => "ResourceExhausted"
  | FailedPrecondition => "FailedPrecondition" | Aborted => "Aborted"
  | OutOfRange => "OutOfRange" | Unimplemented => "Unimplemented"
  | Internal => "Internal" | Unavailable => "Unavailable"
  | DataLoss => "DataLoss" | Unauthenticated => "Unauthenticated"
  end.

(** The error values the gateway builds or passes on: a gRPC status
    ([status.Error]), an error wrapped by [fmt.Errorf] with [%w] (its full
    text and the wrapped error), and an error of a collaborator's own
    (transport, Redis or Kafka client), known by its text. *)
Inductive error : Type :=
| StatusError (c : Code) (msg : string)
| WrapError (text : string) (inner : error)
| ClientError (msg : string).

Definition Error (e : error) : string :=
  match e with
  | StatusError c msg =>
      "rpc error: code = " +:+ Code_String c +:+ " desc = " +:+ msg
  | WrapError text _ => text
  | ClientError msg => msg
  end.

(** [status.Code(err)]: the code of a status error, [Unknown] for any
    other error. *)
Definition status_Code (e : error) : Code :=
  match e with
  | StatusError c _ => c
  | _ => Unknown
  end.

End Go.

(* ================================================================== *)
(** * Formatting: the verbs of [fmt] the code uses *)
(* ================================================================== *)

Module Fmt.
Import Go.

(** ** Decimal digits *)

Definition digit (n : N) : ascii :=
  ascii_of_N (48 + n mod 10).

(** [%d] of a natural number: no leading zero, ["0"] for zero. *)
Definition dec_N (n : N) : string :=
  NilZero.string_of_uint (N.to_uint n).

(** [%d]. *)
Definition dec_Z (z : Z) : string :=
  match z with
  | Zneg p => String "-" (dec_N (Npos p))
  | _ => dec_N (Z.to_N z)
  end.

(** The [k] low decimal digits of [n], most significant first. *)
Fixpoint low_digits (k : nat) (n : N) : string :=
  match k with
  | O => EmptyString
  | S k' => low_digits k' (n / 10) +:+ String (digit n) EmptyString
  end.

(** ** [%.pf]: [strconv.AppendFloat(_, x, 'f', p, 64)] under [fmt] *)

(** [num / den] rounded to the nearest integer, ties to even. *)
Definition round_half_even (num den : N) : N :=
  let q := (num / den)%N in
  let r := (num mod den)%N in
  match (2 * r ?= den)%N with
  | Lt => q
  | Gt => (q + 1)%N
  | Eq => if N.even q then q else (q + 1)%N
  end.

(** The decimal expansion of [m * 2^e] with [p] digits after the point,
    scaled by [10^p]: exact for [e >= 0], correctly rounded otherwise. *)
Definition scaled (p : nat) (m : positive) (e : Z) : N :=
  let num := (Npos m * 10 ^ N.of_nat p)%N in
  match e with
  | Z0 => num
  | Zpos k => (num * 2 ^ Npos k)%N
  | Zneg k => round_half_even num (2 ^ Npos k)
  end.

Definition fixed (p : nat) (n : N) : string :=
  dec_N (n / 10 ^ N.of_nat p) +:+
  match p with
  | O => EmptyString
  | S _ => String "." (low_digits p (n mod 10 ^ N.of_nat p))
  end.

Definition sign (s : bool) : string :=
  if s then "-" else EmptyString.

Definition fmtFloat (p : nat) (x : float64) : string :=
  match x with
  | S754_nan => "NaN"
  | S754_infinity false => "+Inf"
  | S754_infinity true => "-Inf"
  | S754_zero s => sign s +:+ fixed p 0
  | S754_finite s m e => sign s +:+ fixed p (scaled p m e)
  end.

(** ** [fmt.Sprintf] *)

Inductive arg : Type :=
| AString (s : string)
| AFloat (x : float64)
| AInt (z : Z)
| AError (e : error).

(** One operand under one verb.  [%v] and [%w] print an error's text, a
    string as it is and an integer in decimal.  A verb applied to an
    operand kind it has no format for prints Go's bad-verb marker, here
    without the operand. *)
Definition bad (verb : ascii) : string :=
  "%!" +:+ String verb "(BADVERB)".

Definition missing (verb : ascii) : string :=
  "%!" +:+ String verb "(MISSING)".

Definition verb_plain (verb : ascii) (a : option arg) : string :=
  match a with
  | None => missing verb
  | Some a =>
      if Ascii.eqb verb "s" then
        match a with
        | AString s => s
        | AError e => Error e
        | _ => bad verb
        end
      else if Ascii.eqb verb "d" then
        match a with
        | AInt z => dec_Z z
        | _ => bad verb
        end
      else if Ascii.eqb verb "v" || Ascii.eqb verb "w" then
        match a with
        | AString s => s
        | AInt z => dec_Z z
        | AError e => Error e
        | AFloat _ => bad verb
        end
      else bad verb
  end.

Definition verb_float (p : ascii) (a : option arg) : string :=
  match a with
  | None => missing "f"
  | Some (AFloat x) => fmtFloat (N.to_nat (N_of_ascii p - 48)) x
  | Some _ => bad "f"
  end.

Definition is_digit (c : ascii) : bool :=
  (48 <=? N_of_ascii c)%N && (N_of_ascii c <=? 57)%N.

(** The format is read left to right; [%%] prints a percent sign,
    [%.Nf] takes a one-digit precision, every other verb is one
    character. *)
Fixpoint Sprintf (format : string) (args : list arg) : string :=
  match format with
  | EmptyString => EmptyString
  | String c r =>
      if Ascii.eqb c "%" then
        match r with
        | EmptyString => "%!(NOVERB)"
        | String v r1 =>
            if Ascii.eqb v "%" then String "%" (Sprintf r1 args)
            else if Ascii.eqb v "." then
              match r1 with
              | String p (String f r2) =>
                  if is_digit p && Ascii.eqb f "f" then
                    verb_float p (head args) +:+ Sprintf r2 (tail args)
                  else bad f +:+ Sprintf r2 args
              | _ => "%!(NOVERB)"
              end
            else verb_plain v (head args) +:+ Sprintf r1 (tail args)
        end
      else String c (Sprintf r args)
  end.

(** A Go string literal that holds double quotes, written with a single
    quote in the place of each. *)
Definition dquote : ascii := ascii_of_N 34.

Fixpoint raw (s : string) : string :=
  match s with
  | EmptyString => EmptyString
  | String c r => String (if Ascii.eqb c "'" then dquote else c) (raw r)
  end.

(** [fmt.Errorf] with one [%w] operand. *)
Definition Errorf (format : string) (e : error) : error :=
  WrapError (Sprintf format [AError e]) e.

End Fmt.


(* ================================================================== *)
(** * The ingestion gateway: [services/ingestion/main.go] *)
(* ================================================================== *)

(** Modelled from the spec: the generated package [pb] (from
    [proto/fleet.proto]) is not among the sources.  The two messages
    have the fields [main.go] reads and writes; of the status enum only
    the name the gateway uses is known, its other values are kept by
    their wire number. *)
Module pb.
Import Go.

Record CarStatus : Type := {
  CarId : string;
  Latitude : float64;
  Longitude : float64;
  BatteryLevel : float64;
  Velocity : float64;
  Timestamp : Z
}.

Inductive BookingStatus : Type :=
| BOOKING_UNKNOWN
| BookingStatus_number (n : Z).

Record BookingResponse : Type := {
  BookingId : string;
  RespCarId : string;
  Status : BookingStatus;
  Message : string;
  RespTimestamp : Z
}.

End pb.

(** The client types of [go-redis] and [kafka-go] the gateway fills. *)
Module redis.
Import Go.

Record GeoLocation : Type := {
  Name : string;
  Longitude : float64;
  Latitude : float64
}.

(** A value of the [map[string]interface{}] given to [HSet]. *)
Inductive value : Type :=
| VFloat (x : float64)
| VInt (z : Z).

End redis.

Module kafka.

Record Message : Type := {
  Key : string;
  Value : string;
  Time : Z
}.

End kafka.

Module Ingestion.
Import Go Fmt.

Definition grpcPort : string := ":50051".
Definition redisAddr : string := "localhost:6379".
Definition kafkaBroker : string := "localhost:19092".
Definition kafkaTopic : string := "fleet-events".
Definition apiTokenValue : string := "greenlane-secret-token".

(** ** The collaborators *)

(** One call to a collaborator, with what it answered. *)
Inductive Call : Type :=
| Recv (r : pb.CarStatus + error)
| GeoAdd (key : string) (loc : redis.GeoLocation) (res : option error)
| HSet (key : string) (fields : gmap string redis.value) (res : option error)
| WriteMessages (m : kafka.Message) (res : option error)
| Send (r : pb.BookingResponse) (res : option error).

(** The state outside the gateway: the geospatial sets and the hashes of
    the index store, the messages the bus has accepted, the
    acknowledgments delivered to the peer, the log, and every call made
    so far, oldest first.  A geospatial set maps a member to the
    longitude and latitude it was given (the rounding of the store's
    geohash is left out); a hash maps a field to its value. *)
Record World : Type := {
  geo : gmap string (gmap string (float64 * float64));
  hashes : gmap string (gmap string redis.value);
  topic : list kafka.Message;
  delivered : list pb.BookingResponse;
  logged : list string;
  calls : list Call
}.

Definition empty_world : World :=
  {| geo := ∅; hashes := ∅; topic := []; delivered := []; logged := [];
     calls := [] |}.

(** What the collaborators answer while one frame is processed: the
    results of GEOADD, HSET, [WriteMessages] and [Send], and the three
    readings of the clock. *)
Record Answers : Type := {
  geoadd_res : option error;
  hset_res : option error;
  write_res : option error;
  send_res : option error;
  now_message : Z;
  now_id : Z;
  now_response : Z
}.

(** ** A state monad over [World] *)

Definition M (A : Type) : Type := World -> A * World.

Definition ret {A} (a : A) : M A := fun w => (a, w).

Definition bind {A B} (m : M A) (k : A -> M B) : M B :=
  fun w => let (a, w') := m w in k a w'.

Declare Scope gateway_scope.
Delimit Scope gateway_scope with gw.
Notation "x ← y ; z" := (bind y (fun x => z))
  (at level 20, y at level 100, z at level 200, only parsing)
  : gateway_scope.
Notation "x ;; z" := (bind x (fun _ => z))
  (at level 100, z at level 200, only parsing, right associativity)
  : gateway_scope.
Local Open Scope gateway_scope.

Definition called (c : Call) : M unit :=
  fun w =>
    (tt, {| geo := geo w; hashes := hashes w; topic := topic w;
            delivered := delivered w; logged := logged w;
            calls := calls w ++ [c] |}).

(** [log.Println] and [log.Printf]: the text of the line. *)
Definition log_Println (line : string) : M unit :=
  fun w =>
    (tt, {| geo := geo w; hashes := hashes w; topic := topic w;
            delivered := delivered w; logged := logged w ++ [line];
            calls := calls w |}).

Definition log_Printf (format : string) (args : list arg) : M unit :=
  log_Println (Sprintf format args).

(** GEOADD [key lon lat member]: when the store accepts it, the member
    is added to the set at [key] or moved to the new position.  Whether
    the store accepts (it may be unreachable, or refuse the coordinates)
    is the answer [res]. *)
Definition redis_GeoAdd (res : option error) (key : string)
    (loc : redis.GeoLocation) : M (option error) :=
  called (GeoAdd key loc res) ;;
  fun w =>
    (res,
     match res with
     | Some _ => w
     | None =>
         {| geo := <[key := <[redis.Name loc :=
                       (redis.Longitude loc, redis.Latitude loc)]>
                     (default ∅ (geo w !! key))]> (geo w);
            hashes := hashes w; topic := topic w;
            delivered := delivered w; logged := logged w;
            calls := calls w |}
     end).

(** HSET [key field value ...]: when the store accepts it, the given
    fields of the hash at [key] are set, its other fields stay. *)
Definition redis_HSet (res : option error) (key : string)
    (fields : gmap string redis.value) : M (option error) :=
  called (HSet key fields res) ;;
  fun w =>
    (res,
     match res with
     | Some _ => w
     | None =>
         {| geo := geo w;
            hashes := <[key := fields ∪ default ∅ (hashes w !! key)]>
                      (hashes w);
            topic := topic w; delivered := delivered w;
            logged := logged w; calls := calls w |}
     end).

Definition kafka_WriteMessages (res : option error) (m : kafka.Message)
  : M (option error) :=
  called (WriteMessages m res) ;;
  fun w =>
    (res,
     match res with
     | Some _ => w
     | None =>
         {| geo := geo w; hashes := hashes w; topic := topic w ++ [m];
            delivered := delivered w; logged := logged w;
            calls := calls w |}
     end).

Definition stream_Send (res : option error) (r : pb.BookingResponse)
  : M (option error) :=
  called (Send r res) ;;
  fun w =>
    (res,
     match res with
     | Some _ => w
     | None =>
         {| geo := geo w; hashes := hashes w; topic := topic w;
            delivered := delivered w ++ [r]; logged := logged w;
            calls := calls w |}
     end).

(** ** [writeToRedis] *)

Definition writeToRedis (s : Answers) (carStatus : pb.CarStatus)
  : M (option error) :=
  let key := "fleet:locations" in
  err ← redis_GeoAdd (geoadd_res s) key
          {| redis.Name := pb.CarId carStatus;
             redis.Longitude := pb.Longitude carStatus;
             redis.Latitude := pb.Latitude carStatus |};
  match err with
  | Some err => ret (Some (Errorf "ERROR: GEOADD failed: %w" err))
  | None =>
      redis_HSet (hset_res s)
        (Sprintf "car:%s" [AString (pb.CarId carStatus)])
        (<["battery" := redis.VFloat (pb.BatteryLevel carStatus)]>
         (<["velocity" := redis.VFloat (pb.Velocity carStatus)]>
          (<["timestamp" := redis.VInt (pb.Timestamp carStatus)]> ∅))) ;;
      ret None
  end.

(** ** [emitToKafka] *)

(** The format of the event is a raw string literal with double quotes
    in it; it is written here with a single quote for each of them. *)
Definition telemetry_format : string :=
  Eval vm_compute in
    raw "{'car_id':'%s','lat':%.6f,'lon':%.6f,'battery':%.2f,'velocity':%.2f,'timestamp':%d,'event_type':'telemetry'}".

Definition telemetry_message (now : Z) (carStatus : pb.CarStatus)
  : kafka.Message :=
  {| kafka.Key := pb.CarId carStatus;
     kafka.Value :=
       Sprintf telemetry_format
         [AString (pb.CarId carStatus);
          AFloat (pb.Latitude carStatus);
          AFloat (pb.Longitude carStatus);
          AFloat (pb.BatteryLevel carStatus);
          AFloat (pb.Velocity carStatus);
          AInt (pb.Timestamp carStatus)];
     kafka.Time := now |}.

Definition emitToKafka (s : Answers) (carStatus : pb.CarStatus)
  : M (option error) :=
  let message := telemetry_message (now_message s) carStatus in
  kafka_WriteMessages (write_res s) message.

(** ** [StreamTelemetry] *)

(** The server side of one streaming session: the metadata of its
    context ([None] when the context carries none), the frames the peer
    sends with what the collaborators answer while each is processed, and
    the error with which [Recv] ends the session (end of stream or a
    transport failure). *)
Record ServerStream : Type := {
  Context : option (gmap string (list string));
  incoming : list (pb.CarStatus * Answers);
  closing : error
}.

Definition acknowledgment (s : Answers) (carStatus : pb.CarStatus)
  : pb.BookingResponse :=
  {| pb.BookingId :=
       Sprintf "ack-%s-%d"
         [AString (pb.CarId carStatus); AInt (now_id s)];
     pb.RespCarId := pb.CarId carStatus;
     pb.Status := pb.BOOKING_UNKNOWN;
     pb.Message := "Telemetry received";
     pb.RespTimestamp := now_response s |}.

(** The body of the [for] loop for one received frame, up to the call of
    [Send]; its result is the result of [Send]. *)
Definition process (s : Answers) (carStatus : pb.CarStatus)
  : M (option error) :=
  log_Printf
    "📍 Received telemetry from Car %s: Lat=%.4f, Lon=%.4f, Battery=%.1f%%"
    [AString (pb.CarId carStatus); AFloat (pb.Latitude carStatus);
     AFloat (pb.Longitude carStatus); AFloat (pb.BatteryLevel carStatus)] ;;
  err ← writeToRedis s carStatus;
  match err with
  | Some err => log_Printf "⚠️  Redis write failed: %v" [AError err]
  | None => ret tt
  end ;;
  err ← emitToKafka s carStatus;
  match err with
  | Some err => log_Printf "⚠️  Kafka emit failed: %v" [AError err]
  | None => ret tt
  end ;;
  let response := acknowledgment s carStatus in
  stream_Send (send_res s) response.

(** The [for] loop: it ends when [Recv] or [Send] fails. *)
Fixpoint receive (incoming : list (pb.CarStatus * Answers))
    (closing : error) : M (option error) :=
  match incoming with
  | [] =>
      called (Recv (inr closing)) ;;
      log_Printf "ERROR: Stream ended: %v" [AError closing] ;;
      ret (Some closing)
  | (carStatus, s) :: rest =>
      called (Recv (inl carStatus)) ;;
      err ← process s carStatus;
      match err with
      | Some err =>
          log_Printf "ERROR: Failed to send response: %v" [AError err] ;;
          ret (Some err)
      | None => receive rest closing
      end
  end.

Definition StreamTelemetry (stream : ServerStream) : M (option error) :=
  log_Println "INFO: New telemetry stream connected" ;;
  receive (incoming stream) (closing stream).

(** ** Authentication *)

(** [md.Get(k)]: the values under the key, none when it is absent. *)
Definition md_Get (md : gmap string (list string)) (k : string)
  : list string :=
  default [] (md !! k).

Definition validateToken (ctx : option (gmap string (list string)))
  : option error :=
  match ctx with
  | None => Some (StatusError Unauthenticated "missing metadata")
  | Some md =>
      let tokens := md_Get md "x-api-token" in
      match tokens with
      | [] => Some (StatusError Unauthenticated "missing x-api-token")
      | token :: _ =>
          if negb (String.eqb token apiTokenValue) then
            Some (StatusError Unauthenticated "invalid x-api-token")
          else None
      end
  end.

Definition authStreamInterceptor (ss : ServerStream)
    (handler : ServerStream -> M (option error)) : M (option error) :=
  match validateToken (Context ss) with
  | Some err => ret (Some err)
  | None => handler ss
  end.

(** A unary call: the handler answers with a response or an error. *)
Definition authUnaryInterceptor {Req Resp : Type}
    (ctx : option (gmap string (list string))) (req : Req)
    (handler : Req -> M (Resp + error)) : M (Resp + error) :=
  match validateToken ctx with
  | Some err => ret (inr err)
  | None => handler req
  end.

(** The session as the gRPC server runs it. *)
Definition serve (ss : ServerStream) : M (option error) :=
  authStreamInterceptor ss StreamTelemetry.

End Ingestion.

(* ================================================================== *)
(** * JSON texts (RFC 8259), as the consumers of the bus read them *)
(* ================================================================== *)

Module Json.
Import Fmt.

(** The syntax tree of a JSON text.  A number and a string keep their
    text as written: the escape sequences of a string are checked, not
    decoded. *)
#[warnings="-register-all"]
Inductive json : Type :=
| JNull
| JBool (b : bool)
| JNumber (text : string)
| JString (text : string)
| JArray (items : list json)
| JObject (members : list (string * json)).

Definition is_ws (c : ascii) : bool :=
  Ascii.eqb c " " || Ascii.eqb c (ascii_of_N 9)
  || Ascii.eqb c (ascii_of_N 10) || Ascii.eqb c (ascii_of_N 13).

Fixpoint skip_ws (s : string) : string :=
  match s with
  | String c r => if is_ws c then skip_ws r else s
  | EmptyString => s
  end.

Definition is_hex (c : ascii) : bool :=
  let n := N_of_ascii c in
  ((48 <=? n) && (n <=? 57) || (65 <=? n) && (n <=? 70)
   || (97 <=? n) && (n <=? 102))%N.

(** The character after a backslash in a one-character escape. *)
Definition backslash : ascii := ascii_of_N 92.

Definition is_escape (c : ascii) : bool :=
  Ascii.eqb c dquote || Ascii.eqb c backslash || Ascii.eqb c "/"
  || Ascii.eqb c "b" || Ascii.eqb c "f" || Ascii.eqb c "n"
  || Ascii.eqb c "r" || Ascii.eqb c "t".

Definition keep (c : ascii) (r : option (string * string))
  : option (string * string) :=
  match r with
  | Some (text, rest) => Some (String c text, rest)
  | None => None
  end.

(** A string after its opening quote: the text up to the closing quote
    and what follows it.  A control character, an unknown escape or a
    missing closing quote is an error. *)
Fixpoint string_body (s : string) : option (string * string) :=
  match s with
  | EmptyString => None
  | String c r =>
      if Ascii.eqb c dquote then Some (EmptyString, r)
      else if Ascii.eqb c backslash then
        match r with
        | String e r1 =>
            if is_escape e then keep c (keep e (string_body r1))
            else if Ascii.eqb e "u" then
              match r1 with
              | String h1 (String h2 (String h3 (String h4 r2))) =>
                  if is_hex h1 && is_hex h2 && is_hex h3 && is_hex h4
                  then keep c (keep e (keep h1 (keep h2 (keep h3
                         (keep h4 (string_body r2))))))
                  else None
              | _ => None
              end
            else None
        | EmptyString => None
        end
      else if (N_of_ascii c <? 32)%N then None
      else keep c (string_body r)
  end.

(** The longest prefix of decimal digits, and the rest. *)
Fixpoint digits (s : string) : string * string :=
  match s with
  | String c r =>
      if is_digit c then let (d, rest) := digits r in (String c d, rest)
      else (EmptyString, s)
  | EmptyString => (EmptyString, s)
  end.

(** [int]: a zero, or a non-zero digit and digits. *)
Definition number_int (s : string) : option (string * string) :=
  match s with
  | String c r =>
      if Ascii.eqb c "0" then Some (String c EmptyString, r)
      else if is_digit c then
        let (d, rest) := digits r in Some (String c d, rest)
      else None
  | EmptyString => None
  end.

(** [frac], when there is one: a point and at least one digit. *)
Definition number_frac (s : string) : option (string * string) :=
  match s with
  | String c r =>
      if Ascii.eqb c "." then
        match digits r with
        | (EmptyString, _) => None
        | (d, rest) => Some (String c d, rest)
        end
      else Some (EmptyString, s)
  | EmptyString => Some (EmptyString, s)
  end.

(** [exp], when there is one: e or E, a sign or none, at least one
    digit. *)
Definition number_exp (s : string) : option (string * string) :=
  match s with
  | String c r =>
      if Ascii.eqb c "e" || Ascii.eqb c "E" then
        let (sg, r1) :=
          match r with
          | String g r' =>
              if Ascii.eqb g "+" || Ascii.eqb g "-"
              then (String g EmptyString, r') else (EmptyString, r)
          | EmptyString => (EmptyString, r)
          end in
        match digits r1 with
        | (EmptyString, _) => None
        | (d, rest) => Some (String c (sg +:+ d), rest)
        end
      else Some (EmptyString, s)
  | EmptyString => Some (EmptyString, s)
  end.

Definition number (s : string) : option (string * string) :=
  let (sg, s0) :=
    match s with
    | String c r =>
        if Ascii.eqb c "-" then (String c EmptyString, r)
        else (EmptyString, s)
    | EmptyString => (EmptyString, s)
    end in
  match number_int s0 with
  | None => None
  | Some (i, s1) =>
      match number_frac s1 with
      | None => None
      | Some (f, s2) =>
          match number_exp s2 with
          | None => None
          | Some (e, s3) => Some (sg +:+ i +:+ f +:+ e, s3)
          end
      end
  end.

(** [s] without the prefix [p], when it starts with it. *)
Fixpoint strip (p s : string) : option string :=
  match p, s with
  | EmptyString, _ => Some s
  | String a p', String b s' => if Ascii.eqb a b then strip p' s' else None
  | String _ _, EmptyString => None
  end.

Definition literal (s : string) : option (json * string) :=
  match strip "true" s with
  | Some r => Some (JBool true, r)
  | None =>
      match strip "false" s with
      | Some r => Some (JBool false, r)
      | None =>
          match strip "null" s with
          | Some r => Some (JNull, r)
          | None => None
          end
      end
  end.

(** A value, the members of an object after its brace or a comma, and
    the elements of an array after its bracket or a comma.  Each call
    uses one unit of [fuel]. *)
Fixpoint value (fuel : nat) (s : string) {struct fuel}
  : option (json * string) :=
  match fuel with
  | O => None
  | S fuel =>
      match skip_ws s with
      | EmptyString => None
      | String c r =>
          if Ascii.eqb c "{" then
            match skip_ws r with
            | String c' r' =>
                if Ascii.eqb c' "}" then Some (JObject [], r')
                else
                  match members fuel r with
                  | Some (ms, rest) => Some (JObject ms, rest)
                  | None => None
                  end
            | EmptyString => None
            end
          else if Ascii.eqb c "[" then
            match skip_ws r with
            | String c' r' =>
                if Ascii.eqb c' "]" then Some (JArray [], r')
                else
                  match elements fuel r with
                  | Some (vs, rest) => Some (JArray vs, rest)
                  | None => None
                  end
            | EmptyString => None
            end
          else if Ascii.eqb c dquote then
            match string_body r with
            | Some (text, rest) => Some (JString text, rest)
            | None => None
            end
          else if Ascii.eqb c "-" || is_digit c then
            match number (String c r) with
            | Some (text, rest) => Some (JNumber text, rest)
            | None => None
            end
          else literal (String c r)
      end
  end

with members (fuel : nat) (s : string) {struct fuel}
  : option (list (string * json) * string) :=
  match fuel with
  | O => None
  | S fuel =>
      match skip_ws s with
      | String q r =>
          if Ascii.eqb q dquote then
            match string_body r with
            | Some (k, r1) =>
                match skip_ws r1 with
                | String colon r2 =>
                    if Ascii.eqb colon ":" then
                      match value fuel r2 with
                      | Some (v, r3) =>
                          match skip_ws r3 with
                          | String d r4 =>
                              if Ascii.eqb d "," then
                                match members fuel r4 with
                                | Some (ms, rest) =>
                                    Some ((k, v) :: ms, rest)
                                | None => None
                                end
                              else if Ascii.eqb d "}" then
                                Some ([(k, v)], r4)
                              else None
                          | EmptyString => None
                          end
                      | None => None
                      end
                    else None
                | EmptyString => None
                end
            | None => None
            end
          else None
      | EmptyString => None
      end
  end

with elements (fuel : nat) (s : string) {struct fuel}
  : option (list json * string) :=
  match fuel with
  | O => None
  | S fuel =>
      match value fuel s with
      | Some (v, r1) =>
          match skip_ws r1 with
          | String d r2 =>
              if Ascii.eqb d "," then
                match elements fuel r2 with
                | Some (vs, rest) => Some (v :: vs, rest)
                | None => None
                end
              else if Ascii.eqb d "]" then Some ([v], r2)
              else None
          | EmptyString => None
          end
      | None => None
      end
  end.

(** A whole text: one value, then nothing but white space. *)
Definition parse (fuel : nat) (s : string) : option json :=
  match value fuel s with
  | Some (v, rest) =>
      match skip_ws rest with
      | EmptyString => Some v
      | String _ _ => None
      end
  | None => None
  end.

(** [s] is a JSON text of value [v]. *)
Definition parses_to (s : string) (v : json) : Prop :=
  exists fuel, parse fuel s = Some v.

Definition well_formed (s : string) : Prop :=
  exists v, parses_to s v.

(** A character that stands for itself inside a JSON string: not a
    control character, not a double quote, not a backslash. *)
Definition plain_char (c : ascii) : bool :=
  negb (N_of_ascii c <? 32)%N && negb (Ascii.eqb c dquote)
  && negb (Ascii.eqb c backslash).

Fixpoint plain (s : string) : bool :=
  match s with
  | EmptyString => true
  | String c r => plain_char c && plain r
  end.

End Json.

(* ================================================================== *)
(** * Flat JSON objects, written out *)
(* ================================================================== *)

Module Render.
Import Fmt Json.

Fixpoint all_digits (s : string) : bool :=
  match s with
  | EmptyString => true
  | String c r => is_digit c && all_digits r
  end.

(** [s] does not go on with a digit. *)
Definition stops (s : string) : bool :=
  match s with
  | EmptyString => true
  | String c _ => negb (is_digit c)
  end.

(** What follows a member's value in an object. *)
Definition delimiter (c : ascii) : bool :=
  Ascii.eqb c "," || Ascii.eqb c "}".

(** The value of a member of a flat object: a string or a number, by
    its text. *)
Inductive scalar : Type :=
| SString (s : string)
| SNumber (text : string).

Definition scalar_json (v : scalar) : json :=
  match v with
  | SString s => JString s
  | SNumber t => JNumber t
  end.

(** The text of a scalar, of the members of an object and of the
    object, each followed by [rest].  Nothing is escaped and there is no
    white space. *)
Definition render_scalar (v : scalar) (rest : string) : string :=
  match v with
  | SString s => String dquote (s +:+ String dquote rest)
  | SNumber t => t +:+ rest
  end.

Fixpoint render_members (ms : list (string * scalar)) (rest : string)
  : string :=
  match ms with
  | [] => String "}" rest
  | (k, v) :: ms' =>
      String dquote (k +:+ String dquote (String ":"
        (render_scalar v
           match ms' with
           | [] => render_members ms' rest
           | _ :: _ => String "," (render_members ms' rest)
           end)))
  end.

Definition render_object (ms : list (string * scalar)) (rest : string)
  : string :=
  String "{" (render_members ms rest).

(** A scalar whose text, before a delimiter, is read as that scalar. *)
Definition reads_back (v : scalar) : Prop :=
  forall fuel c r, delimiter c = true ->
    value (S fuel) (render_scalar v (String c r))
    = Some (scalar_json v, String c r).

Definition member_ok (kv : string * scalar) : Prop :=
  plain kv.1 = true /\ reads_back kv.2.

End Render.

(* ================================================================== *)
(** * The pricing oracle: [handlePricing] of the mock grid service *)
(* ================================================================== *)

Module MockGrid.
Import Go.

Definition httpPort : string := ":8081".

Record PriceResponse : Type := {
  Timestamp : Z;
  PricePerKwh : float64;
  GridLoad : string;
  EnergySource : string;
  Hour : Z
}.

(** [math.Pi] as a [float64]: 0x400921FB54442D18. *)
Definition Pi : float64 := S754_finite false 7074237752028440 (-51).

(** [math.Round]: the nearest integer, halves away from zero; zeros,
    infinities, NaN and values without a fractional part are returned
    as they are. *)
Definition Round (x : float64) : float64 :=
  match x with
  | S754_finite s m (Zneg k) =>
      match ((2 * Npos m + 2 ^ Npos k) / (2 * 2 ^ Npos k))%N with
      | N0 => S754_zero s
      | Npos q => binary_normalize prec emax (if s then Zneg q else Zpos q) 0 false
      end
  | _ => x
  end.

(** What [handlePricing] takes from its surroundings: the hour of the
    day and the milliseconds of [time.Now()], and [math.Sin]. *)
Section Handler.
Variable Sin : float64 -> float64.

(** The price before the rounding: the sine wave, and the discount when
    the source is solar. *)
Definition wave (hour : Z) : float64 :=
  let basePricePerKwh := of_decimal 25 2 in
  let amplitude := of_decimal 15 2 in
  let hoursFromMidnight := of_Z hour in
  let radians :=
    fdiv (fmul (fsub hoursFromMidnight (of_Z 6)) Pi) (of_Z 12) in
  fadd basePricePerKwh (fmul amplitude (Sin radians)).

Definition gridLoad (pricePerKwh : float64) : string :=
  if fgt pricePerKwh (of_decimal 35 2) then "High"
  else if fgt pricePerKwh (of_decimal 25 2) then "Medium"
  else "Low".

Definition energySource (hour : Z) : string :=
  if (8 <=? hour) && (hour <=? 18) then "Solar"
  else if (19 <=? hour) && (hour <=? 22) then "Wind"
  else "Grid".

Definition discounted (hour : Z) : float64 :=
  let pricePerKwh := wave hour in
  if String.eqb (energySource hour) "Solar"
  then fmul pricePerKwh (of_decimal 9 1)
  else pricePerKwh.

(** The price in hundredths, before [math.Round]. *)
Definition hundredths (hour : Z) : float64 :=
  fmul (discounted hour) (of_Z 100).

Definition handlePricing (hour : Z) (unixMilli : Z) : PriceResponse :=
  {| Timestamp := unixMilli;
     PricePerKwh := fdiv (Round (hundredths hour)) (of_Z 100);
     GridLoad := gridLoad (wave hour);
     EnergySource := energySource hour;
     Hour := hour |}.

End Handler.

(** [x] has no fractional part. *)
Definition integral (x : float64) : bool :=
  match x with
  | S754_zero _ => true
  | S754_finite _ m (Zneg k) => (Npos m mod 2 ^ Npos k =? 0)%N
  | S754_finite _ _ _ => true
  | S754_infinity _ | S754_nan => false
  end.

End MockGrid.

(* ================================================================== *)
(** * What a session leaves behind: observations on the [World] *)
(* ================================================================== *)

Module Observe.
Import Go Fmt Ingestion.

(** The calls one frame gives rise to: GEOADD, HSET only after a
    successful GEOADD, the publish and the acknowledgment. *)
Definition geoadd_call (s : Answers) (f : pb.CarStatus) : Call :=
  GeoAdd "fleet:locations"
    {| redis.Name := pb.CarId f;
       redis.Longitude := pb.Longitude f;
       redis.Latitude := pb.Latitude f |} (geoadd_res s).

Definition metadata_of (f : pb.CarStatus) : gmap string redis.value :=
  <["battery" := redis.VFloat (pb.BatteryLevel f)]>
  (<["velocity" := redis.VFloat (pb.Velocity f)]>
   (<["timestamp" := redis.VInt (pb.Timestamp f)]> ∅)).

Definition hset_call (s : Answers) (f : pb.CarStatus) : Call :=
  HSet ("car:" +:+ pb.CarId f) (metadata_of f) (hset_res s).

Definition publish_call (s : Answers) (f : pb.CarStatus) : Call :=
  WriteMessages (telemetry_message (now_message s) f) (write_res s).

Definition send_call (s : Answers) (f : pb.CarStatus) : Call :=
  Send (acknowledgment s f) (send_res s).

Definition frame_calls (s : Answers) (f : pb.CarStatus) : list Call :=
  geoadd_call s f
  :: match geoadd_res s with
     | None => [hset_call s f]
     | Some _ => []
     end
  ++ [publish_call s f; send_call s f].

Definition round_calls (fs : pb.CarStatus * Answers) : list Call :=
  Recv (inl fs.1) :: frame_calls fs.2 fs.1.

(** The frames a session gets to: all of them up to and including the
    first whose acknowledgment cannot be sent. *)
Fixpoint served (frames : list (pb.CarStatus * Answers))
  : list (pb.CarStatus * Answers) :=
  match frames with
  | [] => []
  | fs :: rest =>
      fs :: match send_res fs.2 with
            | None => served rest
            | Some _ => []
            end
  end.

Definition all_sent (frames : list (pb.CarStatus * Answers)) : bool :=
  forallb (fun fs => bool_decide (send_res fs.2 = None)) frames.

(** Calls that write to the index store or to the bus. *)
Definition is_upsert (c : Call) : bool :=
  match c with
  | GeoAdd _ _ _ | HSet _ _ _ => true
  | _ => false
  end.

Definition is_publish (c : Call) : bool :=
  match c with
  | WriteMessages _ _ => true
  | _ => false
  end.

Definition is_recv (c : Call) : bool :=
  match c with
  | Recv _ => true
  | _ => false
  end.

Definition is_send (c : Call) : bool :=
  match c with
  | Send _ _ => true
  | _ => false
  end.

(** The position and the metadata hash the index store holds for an
    agent. *)
Definition location (w : World) (id : string) : option (float64 * float64) :=
  geo w !! "fleet:locations" ≫= (.!! id).

Definition metadata (w : World) (id : string)
  : option (gmap string redis.value) :=
  hashes w !! ("car:" +:+ id).

(** The fields of the hash the gateway writes. *)
Definition metadata_fields : gset string :=
  {["battery"; "velocity"; "timestamp"]}.

(** No hash under an agent's key has a field the gateway does not
    write. *)
Definition gateway_only (w : World) : Prop :=
  forall id h, metadata w id = Some h -> dom h ⊆ metadata_fields.

(** The index store accepts every write of the session and every
    acknowledgment can be sent. *)
Definition store_accepts (fs : pb.CarStatus * Answers) : Prop :=
  geoadd_res fs.2 = None /\ hset_res fs.2 = None /\ send_res fs.2 = None.

(** The last frame of an agent among [frames]. *)
Fixpoint last_frame (id : string) (frames : list (pb.CarStatus * Answers))
  : option pb.CarStatus :=
  match frames with
  | [] => None
  | fs :: rest =>
      match last_frame id rest with
      | Some f => Some f
      | None => if String.eqb (pb.CarId fs.1) id then Some fs.1 else None
      end
  end.

(** The session's metadata carries the shared secret as the first value
    of [x-api-token]. *)
Definition presents_token (ss : ServerStream) : Prop :=
  exists md, Context ss = Some md
    /\ head (md_Get md "x-api-token") = Some apiTokenValue.

(** The answers [s], but with [r] as the result of HSET. *)
Definition with_hset (r : option error) (s : Answers) : Answers :=
  {| geoadd_res := geoadd_res s; hset_res := r; write_res := write_res s;
     send_res := send_res s; now_message := now_message s;
     now_id := now_id s; now_response := now_response s |}.

(** A frame out of the bounds the specification gives: latitude outside
    [-90, 90], longitude outside [-180, 180], or velocity negative. *)
Definition out_of_bounds (f : pb.CarStatus) : bool :=
  flt (pb.Latitude f) (of_Z (-90)) || fgt (pb.Latitude f) (of_Z 90)
  || flt (pb.Longitude f) (of_Z (-180)) || fgt (pb.Longitude f) (of_Z 180)
  || flt (pb.Velocity f) (of_Z 0).

(** A frame is rejected when processing it makes no call that writes to
    the index store or to the bus. *)
Definition rejected (s : Answers) (f : pb.CarStatus) (w : World) : Prop :=
  List.filter is_upsert (calls (process s f w).2)
  = List.filter is_upsert (calls w)
  /\ List.filter is_publish (calls (process s f w).2)
     = List.filter is_publish (calls w).

(** The event of a frame: the members of the published object, and the
    object as a consumer reads it. *)
Definition telemetry_members (f : pb.CarStatus)
  : list (string * Render.scalar) :=
  [("car_id", Render.SString (pb.CarId f));
   ("lat", Render.SNumber (fmtFloat 6 (pb.Latitude f)));
   ("lon", Render.SNumber (fmtFloat 6 (pb.Longitude f)));
   ("battery", Render.SNumber (fmtFloat 2 (pb.BatteryLevel f)));
   ("velocity", Render.SNumber (fmtFloat 2 (pb.Velocity f)));
   ("timestamp", Render.SNumber (dec_Z (pb.Timestamp f)));
   ("event_type", Render.SString "telemetry")].

Definition telemetry_event (f : pb.CarStatus) : Json.json :=
  Json.JObject
    [("car_id", Json.JString (pb.CarId f));
     ("lat", Json.JNumber (fmtFloat 6 (pb.Latitude f)));
     ("lon", Json.JNumber (fmtFloat 6 (pb.Longitude f)));
     ("battery", Json.JNumber (fmtFloat 2 (pb.BatteryLevel f)));
     ("velocity", Json.JNumber (fmtFloat 2 (pb.Velocity f)));
     ("timestamp", Json.JNumber (dec_Z (pb.Timestamp f)));
     ("event_type", Json.JString "telemetry")].

(** The four numbers of the frame are finite. *)
Definition finite_frame (f : pb.CarStatus) : bool :=
  is_finite (pb.Latitude f) && is_finite (pb.Longitude f)
  && is_finite (pb.BatteryLevel f) && is_finite (pb.Velocity f).

End Observe.

(* ================================================================== *)
(** * Sample sessions *)
(* ================================================================== *)

Module Samples.
Import Go Fmt Ingestion.

(** The frame of the end-to-end scenario. *)
Definition car001 : pb.CarStatus :=
  {| pb.CarId := "CAR-001";
     pb.Latitude := of_decimal 407234 4;
     pb.Longitude := of_decimal (-739876) 4;
     pb.BatteryLevel := of_decimal 853 1;
     pb.Velocity := of_decimal 452 1;
     pb.Timestamp := 1701532800000 |}.

(** The same agent a second later, further north-east, battery lower. *)
Definition car001_later : pb.CarStatus :=
  {| pb.CarId := "CAR-001";
     pb.Latitude := of_decimal 407240 4;
     pb.Longitude := of_decimal (-739870) 4;
     pb.BatteryLevel := of_decimal 852 1;
     pb.Velocity := of_decimal 0 1;
     pb.Timestamp := 1701532801000 |}.

Definition car002 : pb.CarStatus :=
  {| pb.CarId := "CAR-002";
     pb.Latitude := of_decimal 407580 4;
     pb.Longitude := of_decimal (-739855) 4;
     pb.BatteryLevel := of_Z 100;
     pb.Velocity := of_Z 0;
     pb.Timestamp := 1701532800500 |}.

(** A frame with latitude 91. *)
Definition north_of_the_pole : pb.CarStatus :=
  {| pb.CarId := "CAR-003";
     pb.Latitude := of_Z 91;
     pb.Longitude := of_Z 0;
     pb.BatteryLevel := of_Z 50;
     pb.Velocity := of_Z 10;
     pb.Timestamp := 1701532800000 |}.

(** A frame with velocity -5, and battery 0. *)
Definition reversing : pb.CarStatus :=
  {| pb.CarId := "CAR-004";
     pb.Latitude := of_Z 40;
     pb.Longitude := of_Z (-74);
     pb.BatteryLevel := of_Z 0;
     pb.Velocity := of_Z (-5);
     pb.Timestamp := 1701532800000 |}.

Definition all_well (now : Z) : Answers :=
  {| geoadd_res := None; hset_res := None; write_res := None;
     send_res := None; now_message := now; now_id := now + 1;
     now_response := now + 1 |}.

Definition refused : error := ClientError "dial tcp: connection refused".

Definition redis_down (now : Z) : Answers :=
  {| geoadd_res := Some refused; hset_res := Some refused;
     write_res := None; send_res := None; now_message := now;
     now_id := now + 1; now_response := now + 1 |}.

Definition kafka_down (now : Z) : Answers :=
  {| geoadd_res := None; hset_res := None; write_res := Some refused;
     send_res := None; now_message := now; now_id := now + 1;
     now_response := now + 1 |}.

Definition both_down (now : Z) : Answers :=
  {| geoadd_res := Some refused; hset_res := Some refused;
     write_res := Some refused; send_res := None; now_message := now;
     now_id := now + 1; now_response := now + 1 |}.

Definition EOF : error := ClientError "EOF".

Definition with_token : gmap string (list string) :=
  {["x-api-token" := ["greenlane-secret-token"]]}.

Definition wrong_token : gmap string (list string) :=
  {["x-api-token" := ["greenlane-secret"; "greenlane-secret-token"]]}.

Definition other_header : gmap string (list string) :=
  {["user-agent" := ["grpc-python/1.60"]]}.

Definition frames3 : list (pb.CarStatus * Answers) :=
  [(car001, redis_down 1701532800100);
   (car002, kafka_down 1701532800600);
   (car001_later, both_down 1701532801100)].

Definition frames_stored : list (pb.CarStatus * Answers) :=
  [(car001, all_well 1701532800100);
   (car002, all_well 1701532800600);
   (car001_later, all_well 1701532801100)].

Definition stored_session : ServerStream :=
  {| Context := Some with_token; incoming := frames_stored;
     closing := EOF |}.

Definition session (md : option (gmap string (list string))) : ServerStream :=
  {| Context := md; incoming := frames3; closing := EOF |}.

(** Frames whose agent identifier holds a double quote or a backslash,
    and a frame whose latitude is not a number. *)
Definition with_id (id : string) (f : pb.CarStatus) : pb.CarStatus :=
  {| pb.CarId := id; pb.Latitude := pb.Latitude f;
     pb.Longitude := pb.Longitude f; pb.BatteryLevel := pb.BatteryLevel f;
     pb.Velocity := pb.Velocity f; pb.Timestamp := pb.Timestamp f |}.

Definition quoted_id : pb.CarStatus := with_id (raw "CAR-'007'") car001.

Definition lone_quote_id : pb.CarStatus :=
  with_id (String dquote EmptyString) car001.

Definition escaped_backslash_id : pb.CarStatus := with_id "a\\b" car001.

Definition injecting_id : pb.CarStatus :=
  with_id (raw "x','admin':'yes") car001.

Definition nan_latitude : pb.CarStatus :=
  {| pb.CarId := "CAR-005"; pb.Latitude := S754_nan;
     pb.Longitude := of_Z 0; pb.BatteryLevel := of_Z 50;
     pb.Velocity := of_Z 10; pb.Timestamp := 1701532800000 |}.

(** A sine that is 1 everywhere, as [math.Sin] is at noon, and one that
    is 0 everywhere, as it is at six in the morning. *)
Definition Sin_one (x : float64) : float64 := of_Z 1.
Definition Sin_zero (x : float64) : float64 := S754_zero false.

End Samples.

(* ================================================================== *)
(** * More observations on a session *)
(* ================================================================== *)

Module Session.
Import Go Fmt Ingestion Observe.

(** The context's metadata carries the shared secret as the first value
    of [x-api-token]. *)
Definition carries_token (ctx : option (gmap string (list string))) : Prop :=
  exists md, ctx = Some md
    /\ head (md_Get md "x-api-token") = Some apiTokenValue.

(** The events of the frames whose publish the bus accepts, in the order
    of the frames. *)
Definition published (frames : list (pb.CarStatus * Answers))
  : list kafka.Message :=
  flat_map
    (fun fs =>
       match write_res fs.2 with
       | None => [telemetry_message (now_message fs.2) fs.1]
       | Some _ => []
       end) frames.

(** The error of the first [Send] that fails, if any does. *)
Fixpoint send_failure (frames : list (pb.CarStatus * Answers))
  : option error :=
  match frames with
  | [] => None
  | fs :: rest =>
      match send_res fs.2 with
      | Some e => Some e
      | None => send_failure rest
      end
  end.

(** The lines one frame adds to the log: the frame as received, the
    failure of GEOADD and the failure of the publish. *)
Definition frame_log (s : Answers) (f : pb.CarStatus) : list string :=
  ("📍 Received telemetry from Car " +:+ pb.CarId f
     +:+ ": Lat=" +:+ fmtFloat 4 (pb.Latitude f)
     +:+ ", Lon=" +:+ fmtFloat 4 (pb.Longitude f)
     +:+ ", Battery=" +:+ fmtFloat 1 (pb.BatteryLevel f) +:+ "%")
  :: match geoadd_res s with
     | Some e =>
         ["⚠️  Redis write failed: ERROR: GEOADD failed: " +:+ Error e]
     | None => []
     end
  ++ match write_res s with
     | Some e => ["⚠️  Kafka emit failed: " +:+ Error e]
     | None => []
     end.

(** The frames and the events of one agent. *)
Definition frames_of (id : string) (frames : list (pb.CarStatus * Answers))
  : list (pb.CarStatus * Answers) :=
  List.filter (fun fs => String.eqb (pb.CarId fs.1) id) frames.

Definition events_of (id : string) (ms : list kafka.Message)
  : list kafka.Message :=
  List.filter (fun m => String.eqb (kafka.Key m) id) ms.

(** [w'] holds all that [w] holds: every agent that is located is still
    located, every field of an agent's hash is still there, and the bus,
    the peer's acknowledgments, the log and the calls have only got
    longer. *)
Definition grows (w w' : World) : Prop :=
  (forall id, is_Some (location w id) -> is_Some (location w' id))
  /\ (forall id h k, metadata w id = Some h -> is_Some (h !! k) ->
        exists h', metadata w' id = Some h' /\ is_Some (h' !! k))
  /\ topic w `prefix_of` topic w'
  /\ delivered w `prefix_of` delivered w'
  /\ logged w `prefix_of` logged w'
  /\ calls w `prefix_of` calls w'.

(** The member of a JSON object under a key: the last one, as
    [encoding/json] takes it. *)
Fixpoint last_member (k : string) (ms : list (string * Json.json))
  : option Json.json :=
  match ms with
  | [] => None
  | (k', v) :: rest =>
      match last_member k rest with
      | Some v' => Some v'
      | None => if String.eqb k' k then Some v else None
      end
  end.

Definition field (k : string) (v : Json.json) : option Json.json :=
  match v with
  | Json.JObject ms => last_member k ms
  | _ => None
  end.

(** A JSON number without fraction and exponent, as an integer. *)
Definition integer_of (v : Json.json) : option Z :=
  match v with
  | Json.JNumber t => option_map Z.of_int (NilZero.int_of_string t)
  | _ => None
  end.

End Session.

(* ================================================================== *)
(** * The live viewer: [cli/main.go] *)
(* ================================================================== *)

Module Cli.
Import Go Fmt.

Definition kafkaBroker : string := "localhost:19092".
Definition kafkaTopic : string := "fleet-events".
Definition groupID : string := "live-ops-cli".

Record TelemetryEvent : Type := {
  CarID : string;
  Latitude : float64;
  Longitude : float64;
  Battery : float64;
  Velocity : float64;
  Timestamp : Z;
  EventType : string
}.

(** The colours of the viewer; [hiBlack] is the colour of
    [color.HiBlackString]. *)
Inductive Color : Type :=
| headerColor | carIDColor | criticalColor | warningColor | normalColor
| timestampColor | hiBlack.

(** What [displayEvent] writes to the terminal, piece by piece.  The
    escape sequences of a colour and the local time of day are the
    terminal's and the clock's: a painted text is kept with its colour,
    the time of day by the seconds given to [time.Unix]. *)
Inductive Piece : Type :=
| Text (s : string)
| Painted (c : Color) (s : string)
| PaintedLeft (width : nat) (c : Color) (s : string)
| TimeOfDay (c : Color) (seconds : Z).

(** A Go [int] of 64 bits. *)
Definition wrap64 (z : Z) : Z :=
  (z + 2 ^ 63) mod 2 ^ 64 - 2 ^ 63.

Fixpoint spaces (n : nat) : string :=
  match n with
  | O => EmptyString
  | S n' => String " " (spaces n')
  end.

(** A text under a width: spaces to its left up to the width. *)
Definition pad_left (width : nat) (s : string) : string :=
  spaces (width - String.length s) +:+ s.

Definition line_feed : string := String (ascii_of_N 10) EmptyString.

(** ** [displayEvent] *)

(** The verbs with a width are written out: [%5.1f] is the text of
    [%.1f] padded to five on its left, and so on; [%-10s] is applied to
    the painted identifier, escape sequences and all, and stays a piece
    of its own.  [eventNum%10] is Go's remainder, which truncates. *)
Definition batteryText (event : TelemetryEvent) : string :=
  pad_left 5 (fmtFloat 1 (Battery event)) +:+ "%".

Definition displayEvent (event : TelemetryEvent) (eventNum : Z)
  : list Piece :=
  let timestamp := Z.quot (Timestamp event) 1000 in
  let '(batteryColor, batteryIcon) :=
    if flt (Battery event) (of_Z 20) then (criticalColor, "🔴")
    else if flt (Battery event) (of_Z 50) then (warningColor, "🟡")
    else (normalColor, "🟢") in
  [Text "["; TimeOfDay timestampColor timestamp; Text "] ";
   Text batteryIcon; Text " "]
  ++ [PaintedLeft 10 carIDColor (CarID event); Text " | "]
  ++ [Text "Battery: "; Painted batteryColor (batteryText event);
      Text " | "]
  ++ [Text ("Location: (" +:+ pad_left 7 (fmtFloat 4 (Latitude event))
            +:+ ", " +:+ pad_left 8 (fmtFloat 4 (Longitude event))
            +:+ ") | ")]
  ++ [Text ("Speed: " +:+ pad_left 4 (fmtFloat 1 (Velocity event))
            +:+ " km/h")]
  ++ (if flt (Battery event) (of_Z 15)
      then [Painted criticalColor " ⚠️  CRITICAL BATTERY!"]
      else [])
  ++ [Text line_feed]
  ++ (if Z.rem eventNum 10 =? 0
      then [Painted hiBlack
              "─────────────────────────────────────────────────────────────────────────";
            Text line_feed]
      else []).

(** ** The loop of [main] *)

(** One turn of the loop, as its surroundings decide it: the context is
    done; [ReadMessage] fails, with the context cancelled or not; or
    [ReadMessage] returns a message with this value. *)
Inductive Step : Type :=
| Cancelled
| ReadFailed (cancelled : bool) (err : error)
| Read (value : string).

(** What the loop does, in order: an event shown, a line logged, the
    statistics printed for a number of events. *)
Inductive Action : Type :=
| Display (event : TelemetryEvent) (eventNum : Z)
| LogLine (line : string)
| PrintStats (eventCount : Z).

Section Loop.
(** [json.Unmarshal] into a [TelemetryEvent]. *)
Variable Unmarshal : string -> TelemetryEvent + error.

(** The loop from a count of events on.  When the steps run out the
    viewer is waiting in [ReadMessage]. *)
Fixpoint consume (steps : list Step) (eventCount : Z) : list Action :=
  match steps with
  | [] => []
  | Cancelled :: _ => [PrintStats eventCount]
  | ReadFailed true _ :: _ => []
  | ReadFailed false err :: rest =>
      LogLine (Sprintf "Error reading message: %v" [AError err])
      :: consume rest eventCount
  | Read value :: rest =>
      let eventCount := wrap64 (eventCount + 1) in
      match Unmarshal value with
      | inr err =>
          LogLine (Sprintf "Failed to parse event: %v" [AError err])
          :: consume rest eventCount
      | inl event => Display event eventCount :: consume rest eventCount
      end
  end.

(** The terminal after the loop: every event shown is written by
    [displayEvent]. *)
Definition shown (a : Action) : list Piece :=
  match a with
  | Display event eventNum => displayEvent event eventNum
  | _ => []
  end.

End Loop.

(** The turns before the viewer is told to stop. *)
Definition live (s : Step) : bool :=
  match s with
  | Cancelled | ReadFailed true _ => false
  | _ => true
  end.

Definition is_read (s : Step) : bool :=
  match s with
  | Read _ => true
  | _ => false
  end.

(** The number of messages read in [steps]. *)
Definition reads (steps : list Step) : Z :=
  Z.of_nat (length (List.filter is_read steps)).

Definition is_stats (a : Action) : bool :=
  match a with
  | PrintStats _ => true
  | _ => false
  end.

End Cli.

(* ================================================================== *)
(** * Decimal texts, read as numbers *)
(* ================================================================== *)

Module FixedPoint.
Import Go Fmt.

(** The number a text of digits stands for, after [acc]. *)
Fixpoint digits_value (s : string) (acc : N) : N :=
  match s with
  | EmptyString => acc
  | String c r => digits_value r (10 * acc + (N_of_ascii c - 48))%N
  end.

(** The text before the first point, and the text after it when there is
    a point. *)
Fixpoint at_point (s : string) : string * option string :=
  match s with
  | EmptyString => (EmptyString, None)
  | String c r =>
      if Ascii.eqb c "." then (EmptyString, Some r)
      else let (i, f) := at_point r in (String c i, f)
  end.

(** A fixed-point text [-ddd.ddd]: whether it is negative, its digits
    as one natural number and the number of digits after the point.  It
    stands for that number divided by ten to the number of digits. *)
Definition read_fixed (t : string) : option (bool * N * nat) :=
  let (neg, u) :=
    match t with
    | String c r => if Ascii.eqb c "-" then (true, r) else (false, t)
    | EmptyString => (false, t)
    end in
  match at_point u with
  | (i, Some f) =>
      if Render.all_digits i && Render.all_digits f
         && negb (String.eqb i EmptyString)
      then Some (neg, digits_value (i +:+ f) 0, String.length f)
      else None
  | (i, None) =>
      if Render.all_digits i && negb (String.eqb i EmptyString)
      then Some (neg, digits_value i 0, O)
      else None
  end.

(** [n / 10^p], negated when [neg], is the decimal nearest to the finite
    [x] among those with [p] digits after the point: it is [x] when [x]
    is a zero or has no fraction bits, and otherwise at most half of
    [10^-p] away from it. *)
Definition nearest_decimal (x : float64) (neg : bool) (n : N) (p : nat)
  : Prop :=
  match x with
  | S754_zero s => neg = s /\ n = 0%N
  | S754_finite s m e =>
      neg = s
      /\ match e with
         | Zneg k =>
             Z.abs (2 * Z.of_N n * 2 ^ Zpos k
                    - 2 * Zpos m * 10 ^ Z.of_nat p) <= 2 ^ Zpos k
         | _ => Z.of_N n = Zpos m * 2 ^ e * 10 ^ Z.of_nat p
         end
  | _ => False
  end.

(** The object [v] has under [k] a number that is the decimal nearest
    to [x] with [p] digits after the point. *)
Definition carries (v : Json.json) (k : string) (x : float64) (p : nat)
  : Prop :=
  exists t neg n,
    Session.field k v = Some (Json.JNumber t)
    /\ read_fixed t = Some (neg, n, p)
    /\ nearest_decimal x neg n p.

End FixedPoint.

(* ================================================================== *)
(** * More sample sessions, and sample runs of the viewer *)
(* ================================================================== *)

Module MoreSamples.
Import Go Fmt Ingestion Samples Cli.

Definition send_down (now : Z) : Answers :=
  {| geoadd_res := None; hset_res := None; write_res := None;
     send_res := Some (ClientError "transport is closing");
     now_message := now; now_id := now + 1; now_response := now + 1 |}.

Definition hset_down (now : Z) : Answers :=
  {| geoadd_res := None; hset_res := Some refused; write_res := None;
     send_res := None; now_message := now; now_id := now + 1;
     now_response := now + 1 |}.

(** A session whose second acknowledgment cannot be sent. *)
Definition broken_session : ServerStream :=
  {| Context := Some with_token;
     incoming := [(car001, all_well 1701532800100)]
                 ++ (car002, send_down 1701532800600)
                 :: [(car001_later, all_well 1701532801100)];
     closing := EOF |}.

Definition wrong_token_alone : gmap string (list string) :=
  {["x-api-token" := ["greenlane-secret"]]}.

(** A unary handler that answers with its request. *)
Definition echo (req : string) : M (string + error) :=
  fun w => (inl req, w).

(** Two events of the viewer, and a decoder that knows their two
    texts. *)
Definition low_event : TelemetryEvent :=
  {| CarID := "CAR-001"; Latitude := of_decimal 407234 4;
     Longitude := of_decimal (-739876) 4; Battery := of_decimal 125 1;
     Velocity := of_decimal 452 1; Timestamp := 1701532800000;
     EventType := "telemetry" |}.

Definition full_event : TelemetryEvent :=
  {| CarID := "CAR-002"; Latitude := of_decimal 407580 4;
     Longitude := of_decimal (-739855) 4; Battery := of_Z 100;
     Velocity := of_Z 0; Timestamp := 1701532800500;
     EventType := "telemetry" |}.

Definition decode (value : string) : TelemetryEvent + error :=
  if String.eqb value "low" then inl low_event
  else if String.eqb value "full" then inl full_event
  else inr (ClientError "invalid character").

Definition broker_restart : error := ClientError "connection reset".

Definition turns : list Step :=
  [Read "low"; Read "garbage"; ReadFailed false broker_restart;
   Read "full"].

End MoreSamples.

(* ================================================================== *)
(** * Formatting: examples and facts *)
(* ================================================================== *)

Module FmtFacts.
Import Go Fmt.

Example fmtFloat_lat :
  fmtFloat 6 (of_decimal 407234 4) = "40.723400".
Proof. vm_compute. reflexivity. Qed.

Example fmtFloat_lon :
  fmtFloat 6 (of_decimal (-739876) 4) = "-73.987600".
Proof. vm_compute. reflexivity. Qed.

Example fmtFloat_battery :
  fmtFloat 2 (of_decimal 853 1) = "85.30".
Proof. vm_compute. reflexivity. Qed.

Example fmtFloat_ties_even :
  fmtFloat 0 (of_decimal 25 1) = "2" /\ fmtFloat 0 (of_decimal 35 1) = "4"
  /\ fmtFloat 1 (of_decimal 25 2) = "0.2".
Proof. vm_compute. auto. Qed.

Example fmtFloat_small_negative :
  fmtFloat 6 (of_decimal (-1) 9) = "-0.000000".
Proof. vm_compute. reflexivity. Qed.

Example Sprintf_ack :
  Sprintf "ack-%s-%d" [AString "CAR-001"; AInt 1701532800123]
  = "ack-CAR-001-1701532800123".
Proof. vm_compute. reflexivity. Qed.

Example Sprintf_percent :
  Sprintf "Battery=%.1f%%" [AFloat (of_decimal 853 1)] = "Battery=85.3%".
Proof. vm_compute. reflexivity. Qed.

Lemma append_empty (s : string) : s +:+ EmptyString = s.
Proof. induction s as [|c s IH]; cbn; [reflexivity | now rewrite IH]. Qed.

Lemma append_assoc (a b c : string) : (a +:+ b) +:+ c = a +:+ (b +:+ c).
Proof. induction a as [|x a IH]; cbn; [reflexivity | now rewrite IH]. Qed.

Lemma Sprintf_car_key (id : string) :
  Sprintf "car:%s" [AString id] = "car:" +:+ id.
Proof. cbn. now rewrite append_empty. Qed.

Lemma Sprintf_ack_id (id : string) (now : Z) :
  Sprintf "ack-%s-%d" [AString id; AInt now]
  = "ack-" +:+ id +:+ "-" +:+ dec_Z now.
Proof. cbn. now rewrite append_empty. Qed.

End FmtFacts.

(* ================================================================== *)
(** * The gateway: one frame *)
(* ================================================================== *)

Module FrameFacts.
Import Go Fmt Ingestion Observe FmtFacts.

(** The formatted texts do not matter to the flow of control. *)
Local Opaque Sprintf.

(** The answers are split into their cases before the monadic code is
    unfolded, so that every state update computes. *)
Ltac cases s := destruct s as [[?|] [?|] [?|] [?|] ? ? ?].

Ltac run :=
  unfold process, writeToRedis, emitToKafka, redis_GeoAdd, redis_HSet,
    kafka_WriteMessages, stream_Send, log_Printf, log_Println, called,
    bind, ret;
  cbn [fst snd geo hashes topic delivered logged calls
       geoadd_res hset_res write_res send_res now_message now_id
       now_response].

Lemma process_result s f w : (process s f w).1 = send_res s.
Proof. cases s; run; reflexivity. Qed.

Lemma process_calls s f w :
  calls (process s f w).2 = calls w ++ frame_calls s f.
Proof.
  unfold frame_calls, geoadd_call, hset_call, publish_call, send_call,
    metadata_of.
  rewrite <- Sprintf_car_key.
  cases s; run; rewrite <- ?app_assoc; reflexivity.
Qed.

Lemma process_delivered s f w :
  delivered (process s f w).2
  = delivered w ++ match send_res s with
                   | None => [acknowledgment s f]
                   | Some _ => []
                   end.
Proof. cases s; run; rewrite ?app_nil_r; reflexivity. Qed.

Lemma process_topic s f w :
  topic (process s f w).2
  = topic w ++ match write_res s with
               | None => [telemetry_message (now_message s) f]
               | Some _ => []
               end.
Proof. cases s; run; rewrite ?app_nil_r; reflexivity. Qed.

Lemma process_logged_hset s f w r :
  logged (process (with_hset r s) f w).2 = logged (process s f w).2.
Proof. unfold with_hset. cases s; destruct r; run; reflexivity. Qed.

Lemma writeToRedis_result s f w :
  (writeToRedis s f w).1
  = match geoadd_res s with
    | Some err => Some (Errorf "ERROR: GEOADD failed: %w" err)
    | None => None
    end.
Proof. cases s; run; reflexivity. Qed.

End FrameFacts.

(* ================================================================== *)
(** * The gateway: a session *)
(* ================================================================== *)

Module SessionFacts.
Import Go Fmt Ingestion Observe FmtFacts FrameFacts.

Local Opaque Sprintf process.

(** One turn of the loop: the frame is processed, and the loop goes on
    exactly when the acknowledgment could be sent. *)
Lemma receive_cons f s rest closing w :
  receive ((f, s) :: rest) closing w
  = let w1 := (process s f (called (Recv (inl f)) w).2).2 in
    match send_res s with
    | None => receive rest closing w1
    | Some err =>
        (Some err,
         (log_Printf "ERROR: Failed to send response: %v" [AError err] w1).2)
    end.
Proof.
  cbn [receive]. unfold bind at 1. cbn [called].
  unfold bind at 1.
  pose proof (process_result s f (called (Recv (inl f)) w).2) as Hres.
  cbn [called snd] in Hres |- *.
  destruct (process s f _) as [err w1]. cbn in Hres. subst err.
  destruct (send_res s); reflexivity.
Qed.

Lemma receive_nil closing w :
  receive [] closing w
  = (Some closing,
     (log_Printf "ERROR: Stream ended: %v" [AError closing]
        (called (Recv (inr closing)) w).2).2).
Proof. reflexivity. Qed.

Lemma served_all frames :
  Forall (fun fs => send_res fs.2 = None) frames ->
  served frames = frames /\ all_sent frames = true.
Proof.
  induction 1 as [|[f s] rest Hs _ [IH1 IH2]]; [easy|].
  cbn [served all_sent forallb snd] in *. fold (all_sent rest).
  rewrite Hs, IH1, IH2. now rewrite bool_decide_eq_true_2.
Qed.

(** The calls of the loop: a round for each frame it gets to, and the
    last [Recv] when no [Send] failed. *)
Lemma receive_calls frames closing w :
  calls (receive frames closing w).2
  = calls w ++ flat_map round_calls (served frames)
    ++ (if all_sent frames then [Recv (inr closing)] else []).
Proof.
  revert w. induction frames as [|[f s] rest IH]; intros w.
  - rewrite receive_nil. reflexivity.
  - rewrite receive_cons. cbn zeta.
    cbn [served all_sent forallb flat_map snd fst]. fold (all_sent rest).
    unfold round_calls at 1. cbn [fst snd].
    destruct (send_res s) as [err|] eqn:Hs.
    + rewrite bool_decide_eq_false_2 by discriminate.
      unfold log_Printf, log_Println. cbn [snd calls flat_map andb].
      rewrite process_calls. cbn [called snd calls].
      rewrite !app_nil_r, <- app_assoc. reflexivity.
    + rewrite bool_decide_eq_true_2 by reflexivity. cbn [andb].
      rewrite IH, process_calls. cbn [called snd calls].
      rewrite <- !app_assoc. reflexivity.
Qed.

Lemma receive_result frames closing w :
  all_sent frames = true -> (receive frames closing w).1 = Some closing.
Proof.
  revert w. induction frames as [|[f s] rest IH]; intros w H.
  - reflexivity.
  - rewrite receive_cons. cbn in H. apply andb_prop in H as [Hs H].
    apply bool_decide_eq_true_1 in Hs. cbn in Hs. rewrite Hs. cbn zeta.
    now apply IH.
Qed.

Lemma receive_delivered frames closing w :
  Forall (fun fs => send_res fs.2 = None) frames ->
  delivered (receive frames closing w).2
  = delivered w ++ map (fun fs => acknowledgment fs.2 fs.1) frames.
Proof.
  intros H. revert w. induction H as [|[f s] rest Hs _ IH]; intros w.
  - rewrite receive_nil. cbn. now rewrite app_nil_r.
  - rewrite receive_cons. cbn in Hs. rewrite Hs. cbn zeta.
    rewrite IH, process_delivered, Hs. cbn. now rewrite <- app_assoc.
Qed.

Lemma StreamTelemetry_receive ss w :
  StreamTelemetry ss w
  = receive (incoming ss) (closing ss)
      (log_Println "INFO: New telemetry stream connected" w).2.
Proof. reflexivity. Qed.

End SessionFacts.

(* ================================================================== *)
(** * The gateway: the properties of the specification *)
(* ================================================================== *)

Module GatewaySpec.
Import Go Fmt Ingestion Observe Samples FmtFacts FrameFacts SessionFacts.

Local Opaque Sprintf.

Lemma validateToken_presents ss :
  presents_token ss -> validateToken (Context ss) = None.
Proof.
  intros (md & Hctx & Hhd). rewrite Hctx. cbn.
  destruct (md_Get md "x-api-token") as [|token rest]; [discriminate|].
  cbn in Hhd. injection Hhd as ->. now rewrite String.eqb_refl.
Qed.

Lemma validateToken_rejects ss :
  ~ presents_token ss ->
  exists msg, validateToken (Context ss)
              = Some (StatusError Unauthenticated msg).
Proof.
  intros Hno. unfold validateToken.
  destruct (Context ss) as [md|] eqn:Hctx; [|eauto].
  destruct (md_Get md "x-api-token") as [|token rest] eqn:Hget; [eauto|].
  destruct (String.eqb token apiTokenValue) eqn:Heq; cbn; [|eauto].
  exfalso. apply Hno. exists md. split; [assumption|].
  rewrite Hget. cbn. apply String.eqb_eq in Heq. now subst.
Qed.

(** C2. A session whose metadata does not carry the shared secret as
    the first [x-api-token] value (no metadata, no such entry, or another
    first value) is failed with an [Unauthenticated] status and the
    handler is not run: the world is as it was, so nothing was received,
    written or published.  A session that carries it is handed to the
    handler. *)
Theorem auth_gates_the_handler (ss : ServerStream)
    (handler : ServerStream -> M (option error)) (w : World) :
  (~ presents_token ss ->
   exists err, authStreamInterceptor ss handler w = (Some err, w)
               /\ status_Code err = Unauthenticated)
  /\ (presents_token ss ->
      authStreamInterceptor ss handler w = handler ss w).
Proof.
  unfold authStreamInterceptor. split.
  - intros Hno. destruct (validateToken_rejects ss Hno) as [msg ->].
    eexists. split; reflexivity.
  - intros Hyes. now rewrite (validateToken_presents ss Hyes).
Qed.

Lemma auth_gates_the_handler_witness :
  (exists err,
     authStreamInterceptor (session (Some wrong_token)) StreamTelemetry
       empty_world = (Some err, empty_world)
     /\ status_Code err = Unauthenticated)
  /\ authStreamInterceptor (session (Some with_token)) StreamTelemetry
       empty_world
     = StreamTelemetry (session (Some with_token)) empty_world.
Proof.
  split.
  - apply (proj1 (auth_gates_the_handler _ _ _)).
    intros (md & Hctx & Hhd). injection Hctx as <-.
    vm_compute in Hhd. discriminate.
  - apply (proj2 (auth_gates_the_handler _ _ _)).
    exists with_token. split; [reflexivity | vm_compute; reflexivity].
Defined.

(** Without metadata, or without the entry, the session is refused as
    well, and the sample session leaves no trace. *)
Example refused_sessions_leave_no_trace :
  serve (session None) empty_world
  = (Some (StatusError Unauthenticated "missing metadata"), empty_world)
  /\ serve (session (Some other_header)) empty_world
     = (Some (StatusError Unauthenticated "missing x-api-token"),
        empty_world)
  /\ serve (session (Some wrong_token)) empty_world
     = (Some (StatusError Unauthenticated "invalid x-api-token"),
        empty_world).
Proof. repeat split; vm_compute; reflexivity. Qed.

Lemma round_calls_shape fs :
  In (geoadd_call fs.2 fs.1) (round_calls fs)
  /\ List.filter is_recv (round_calls fs) = [Recv (inl fs.1)]
  /\ List.filter is_publish (round_calls fs) = [publish_call fs.2 fs.1]
  /\ List.filter is_send (round_calls fs) = [send_call fs.2 fs.1].
Proof.
  destruct fs as [f s]. unfold round_calls, frame_calls. cbn [fst snd].
  split; [right; left; reflexivity|].
  destruct (geoadd_res s); repeat split; reflexivity.
Qed.

(** C3. On a session whose acknowledgments can all be sent, whatever
    the index store and the bus answer: the calls of the session are, for
    each frame in order, one [Recv], the GEOADD (and the HSET after a
    successful GEOADD), exactly one publish and exactly one [Send] of the
    frame's acknowledgment, and then the [Recv] that ends the session;
    every frame's acknowledgment is delivered to the peer. *)
Theorem dual_write_and_one_ack_per_frame (ss : ServerStream) (w : World) :
  Forall (fun fs => send_res fs.2 = None) (incoming ss) ->
  let w' := (StreamTelemetry ss w).2 in
  calls w' = calls w ++ flat_map round_calls (incoming ss)
                   ++ [Recv (inr (closing ss))]
  /\ Forall (fun fs =>
        In (geoadd_call fs.2 fs.1) (round_calls fs)
        /\ List.filter is_recv (round_calls fs) = [Recv (inl fs.1)]
        /\ List.filter is_publish (round_calls fs)
           = [publish_call fs.2 fs.1]
        /\ List.filter is_send (round_calls fs) = [send_call fs.2 fs.1])
       (incoming ss)
  /\ delivered w'
     = delivered w ++ map (fun fs => acknowledgment fs.2 fs.1) (incoming ss)
  /\ (StreamTelemetry ss w).1 = Some (closing ss).
Proof.
  intros Hsent w'. subst w'. rewrite StreamTelemetry_receive.
  destruct (served_all _ Hsent) as [Hserved Hall].
  rewrite receive_calls, Hserved, Hall.
  rewrite receive_delivered by assumption.
  rewrite receive_result by assumption.
  repeat split; try reflexivity.
  apply Forall_forall. intros fs _. apply round_calls_shape.
Qed.

Lemma dual_write_and_one_ack_per_frame_witness :
  let ss := session (Some with_token) in
  let w' := (StreamTelemetry ss empty_world).2 in
  calls w' = flat_map round_calls frames3 ++ [Recv (inr EOF)]
  /\ delivered w' = map (fun fs => acknowledgment fs.2 fs.1) frames3
  /\ (StreamTelemetry ss empty_world).1 = Some EOF.
Proof.
  assert (H : Forall (fun fs : pb.CarStatus * Answers => send_res fs.2 = None)
                frames3)
    by (repeat constructor).
  destruct (dual_write_and_one_ack_per_frame
              (session (Some with_token)) empty_world H)
    as (Hcalls & _ & Hdelivered & Hres).
  repeat split; assumption.
Defined.

Lemma served_incl frames fs : In fs (served frames) -> In fs frames.
Proof.
  induction frames as [|x rest IH]; cbn; [easy|].
  intros [->|H]; [now left|]. right.
  destruct (send_res x.2); [destruct H | now apply IH].
Qed.

(** Every acknowledgment a session hands to [Send] is the
    acknowledgment of one of its frames. *)
Lemma sends_are_acknowledgments ss w r res :
  In (Send r res) (calls (StreamTelemetry ss w).2) ->
  In (Send r res) (calls w)
  \/ exists f s, In (f, s) (incoming ss) /\ r = acknowledgment s f
                 /\ res = send_res s.
Proof.
  rewrite StreamTelemetry_receive, receive_calls. cbn [log_Println snd calls].
  rewrite !in_app_iff, in_flat_map.
  intros [H|[(fs & Hfs & H)|H]]; [now left| |].
  - right. destruct fs as [f s]. exists f, s.
    split; [now apply served_incl|].
    unfold round_calls, frame_calls in H. cbn [fst snd] in H.
    destruct H as [H|[H|H]]; [discriminate H..|].
    apply in_app_iff in H as [H|[H|[H|[]]]]; [|discriminate H|].
    + destruct (geoadd_res s); [destruct H|].
      destruct H as [H|[]]; discriminate H.
    + injection H as <- <-. split; reflexivity.
  - destruct (all_sent _); [|destruct H].
    destruct H as [H|[]]; discriminate H.
Qed.

(** C7. Every acknowledgment answers the frame received in its round.
    The calls of a session are its rounds, in the order of the frames it
    gets to: the [Recv] that returns the frame, then the calls of
    processing that frame.  Processing a frame ends with the one [Send]
    of its round, and what that [Send] carries has the received frame's
    agent identifier as its agent-id field, and as its correlation
    identifier ["ack-"], the received frame's agent identifier, ["-"]
    and the milliseconds of the clock read when the acknowledgment is
    built. *)
Theorem ack_correlates_with_its_frame (ss : ServerStream) (w : World) :
  let w' := (StreamTelemetry ss w).2 in
  calls w'
  = calls w ++ flat_map round_calls (served (incoming ss))
    ++ (if all_sent (incoming ss) then [Recv (inr (closing ss))] else [])
  /\ forall (f : pb.CarStatus) (s : Answers),
       round_calls (f, s) = Recv (inl f) :: frame_calls s f
       /\ (forall w0, calls (process s f w0).2 = calls w0 ++ frame_calls s f)
       /\ exists writes r,
            frame_calls s f = writes ++ [Send r (send_res s)]
            /\ List.filter is_recv writes = []
            /\ List.filter is_send writes = []
            /\ pb.RespCarId r = pb.CarId f
            /\ pb.BookingId r
               = "ack-" +:+ pb.CarId f +:+ "-" +:+ dec_Z (now_id s).
Proof.
  intros w'. subst w'. split.
  - rewrite StreamTelemetry_receive, receive_calls.
    cbn [log_Println snd calls]. reflexivity.
  - intros f s. split; [reflexivity|].
    split; [intros w0; apply process_calls|].
    exists (geoadd_call s f
            :: match geoadd_res s with
               | None => [hset_call s f]
               | Some _ => []
               end ++ [publish_call s f]), (acknowledgment s f).
    unfold frame_calls, send_call, geoadd_call, hset_call, publish_call.
    destruct (geoadd_res s); (repeat split; try reflexivity);
      cbn [acknowledgment pb.BookingId]; apply Sprintf_ack_id.
Qed.

Lemma ack_correlates_with_its_frame_witness :
  calls (StreamTelemetry (session (Some with_token)) empty_world).2
  = flat_map round_calls frames3 ++ [Recv (inr EOF)]
  /\ exists writes r,
       frame_calls (kafka_down 1701532800600) car002
       = writes ++ [Send r None]
       /\ pb.RespCarId r = "CAR-002"
       /\ pb.BookingId r = "ack-CAR-002-1701532800601".
Proof.
  destruct (ack_correlates_with_its_frame (session (Some with_token))
              empty_world) as [Hcalls Hround].
  split; [exact Hcalls|].
  destruct (Hround car002 (kafka_down 1701532800600))
    as (_ & _ & writes & r & Heq & _ & _ & Hid & Hbooking).
  exists writes, r. repeat split; assumption.
Defined.

Example ack_of_car002 :
  pb.BookingId (acknowledgment (kafka_down 1701532800600) car002)
  = "ack-CAR-002-1701532800601".
Proof. vm_compute. reflexivity. Qed.

(** C8. Every acknowledgment a session sends has the status
    [BOOKING_UNKNOWN] and the message ["Telemetry received"], whatever
    the frame holds and whatever the index store and the bus answered. *)
Theorem ack_status_and_message_are_constant (ss : ServerStream) (w : World)
    (r : pb.BookingResponse) (res : option error) :
  In (Send r res) (calls (StreamTelemetry ss w).2) ->
  ~ In (Send r res) (calls w) ->
  pb.Status r = pb.BOOKING_UNKNOWN /\ pb.Message r = "Telemetry received".
Proof.
  intros Hin Hnew.
  destruct (sends_are_acknowledgments ss w r res Hin)
    as [H|(f & s & _ & -> & _)]; [contradiction|].
  split; reflexivity.
Qed.

Lemma ack_status_and_message_are_constant_witness :
  pb.Status (acknowledgment (both_down 1701532801100) car001_later)
  = pb.BOOKING_UNKNOWN
  /\ pb.Message (acknowledgment (both_down 1701532801100) car001_later)
     = "Telemetry received".
Proof.
  apply (ack_status_and_message_are_constant (session (Some with_token))
           empty_world _ None).
  - vm_compute. do 12 right. left. reflexivity.
  - intros [].
Defined.

(** C6. [writeToRedis] returns an error exactly when GEOADD fails.  The
    result of HSET does not reach its caller: with any other HSET result
    [r], [writeToRedis] and the processing of the frame return the same,
    the same lines are logged, the same message is published and the
    same acknowledgment is sent and delivered. *)
Theorem hset_result_is_discarded (s : Answers) (f : pb.CarStatus)
    (w : World) (r : option error) :
  (is_Some (writeToRedis s f w).1 <-> is_Some (geoadd_res s))
  /\ (writeToRedis (with_hset r s) f w).1 = (writeToRedis s f w).1
  /\ (process (with_hset r s) f w).1 = (process s f w).1
  /\ logged (process (with_hset r s) f w).2 = logged (process s f w).2
  /\ topic (process (with_hset r s) f w).2 = topic (process s f w).2
  /\ delivered (process (with_hset r s) f w).2
     = delivered (process s f w).2
  /\ send_call (with_hset r s) f = send_call s f.
Proof.
  rewrite !writeToRedis_result, !process_result, !process_topic,
    !process_delivered, process_logged_hset.
  repeat split; try reflexivity.
  - destruct (geoadd_res s); [eauto|]. intros H. now apply is_Some_None in H.
  - destruct (geoadd_res s); [eauto|]. intros H'. now apply is_Some_None in H'.
Qed.

(** A failed HSET after a successful GEOADD: nothing about it is logged,
    no metadata is stored, and the acknowledgment is delivered. *)
Example failed_hset_is_silent :
  let s := with_hset (Some refused) (all_well 1701532800100) in
  let w := (process s car001 empty_world).2 in
  (writeToRedis s car001 empty_world).1 = None
  /\ length (logged w) = 1%nat
  /\ metadata w "CAR-001" = None
  /\ location w "CAR-001"
     = Some (pb.Longitude car001, pb.Latitude car001)
  /\ delivered w = [acknowledgment s car001].
Proof. vm_compute. repeat split. Qed.

Lemma frame_calls_write s f :
  List.filter is_upsert (frame_calls s f) <> []
  /\ List.filter is_publish (frame_calls s f) <> [].
Proof.
  unfold frame_calls. destruct (geoadd_res s); cbn; split; discriminate.
Qed.

Lemma never_rejected s f w : ~ rejected s f w.
Proof.
  intros [Hup _]. rewrite process_calls, List.filter_app in Hup.
  destruct (frame_calls_write s f) as [Hne _].
  apply (f_equal (@length _)) in Hup. rewrite length_app in Hup.
  destruct (List.filter is_upsert (frame_calls s f)); [now apply Hne|].
  cbn in Hup. lia.
Qed.

(** C1, as the specification states it, fails: the frame with velocity
    -5 is out of bounds and is not rejected.  The GEOADD and the publish
    are made, the agent's position is in the index store and its event
    is on the bus. *)
Lemma out_of_bounds_frame_is_processed :
  let s := all_well 1701532800100 in
  let w := (process s reversing empty_world).2 in
  out_of_bounds reversing = true
  /\ ~ rejected s reversing empty_world
  /\ location w "CAR-004" = Some (of_Z (-74), of_Z 40)
  /\ topic w = [telemetry_message 1701532800100 reversing].
Proof.
  cbv zeta. split; [vm_compute; reflexivity|]. split.
  - intros [Hup _]. vm_compute in Hup. discriminate Hup.
  - split; vm_compute; reflexivity.
Qed.

(** The frame with latitude 91, which the index store may well refuse:
    its event is published all the same. *)
Example out_of_bounds_frame_is_published :
  let s := redis_down 1701532800100 in
  let w := (process s north_of_the_pole empty_world).2 in
  out_of_bounds north_of_the_pole = true
  /\ location w "CAR-003" = None
  /\ topic w = [telemetry_message 1701532800100 north_of_the_pole]
  /\ delivered w = [acknowledgment s north_of_the_pole].
Proof. cbv zeta. repeat apply conj; vm_compute; reflexivity. Qed.

(** C1, amended.  The gateway checks no bounds: every frame received on
    an authenticated session, in bounds or out of bounds, is processed
    and none is rejected.  The GEOADD, the publish and the
    acknowledgment are all attempted, and when the acknowledgment can be
    sent the session goes on with the next frame. *)
Theorem every_frame_is_processed (s : Answers) (f : pb.CarStatus)
    (w : World) :
  ~ rejected s f w
  /\ In (geoadd_call s f) (calls (process s f w).2)
  /\ In (publish_call s f) (calls (process s f w).2)
  /\ In (send_call s f) (calls (process s f w).2)
  /\ (send_res s = None ->
      forall rest closing,
        receive ((f, s) :: rest) closing w
        = receive rest closing
            (process s f (called (Recv (inl f)) w).2).2).
Proof.
  split; [apply never_rejected|].
  rewrite process_calls. unfold frame_calls.
  repeat split.
  - apply in_app_iff. right. now left.
  - apply in_app_iff. right. right. apply in_app_iff. right. now left.
  - apply in_app_iff. right. right. apply in_app_iff. right. right.
    now left.
  - intros Hs rest closing. rewrite receive_cons, Hs. reflexivity.
Qed.

Lemma every_frame_is_processed_witness :
  receive [(north_of_the_pole, all_well 1701532800100);
           (car002, all_well 1701532800600)] EOF empty_world
  = receive [(car002, all_well 1701532800600)] EOF
      (process (all_well 1701532800100) north_of_the_pole
         (called (Recv (inl north_of_the_pole)) empty_world).2).2.
Proof.
  apply (proj2 (proj2 (proj2 (proj2
           (every_frame_is_processed (all_well 1701532800100)
              north_of_the_pole empty_world))))).
  reflexivity.
Defined.

(** Battery 0, battery 100 and velocity 0 are within the bounds, and are
    processed like every frame. *)
Example boundary_frames_are_in_bounds :
  out_of_bounds car002 = false /\ out_of_bounds car001_later = false.
Proof. vm_compute. repeat split. Qed.

End GatewaySpec.

(* ================================================================== *)
(** * The gateway: the positional record *)
(* ================================================================== *)

Module RecordFacts.
Import Go Fmt Ingestion Observe Samples FmtFacts FrameFacts SessionFacts.

Local Opaque Sprintf.

Lemma car_key_inj (id id' : string) :
  "car:" +:+ id = "car:" +:+ id' -> id = id'.
Proof. cbn. intros H. now injection H. Qed.

Lemma dom_metadata_of f : dom (metadata_of f) = metadata_fields.
Proof.
  unfold metadata_of, metadata_fields. rewrite !dom_insert_L, dom_empty_L.
  set_solver.
Qed.

Lemma union_covered (new old : gmap string redis.value) :
  dom old ⊆ dom new -> new ∪ old = new.
Proof.
  intros Hdom. apply map_eq. intros k. rewrite lookup_union.
  destruct (new !! k) as [v|] eqn:Hnew.
  - now destruct (old !! k).
  - apply not_elem_of_dom in Hnew.
    assert (k ∉ dom old) as Hold by set_solver.
    apply not_elem_of_dom in Hold. now rewrite Hold.
Qed.

Lemma process_geo s f w :
  geo (process s f w).2
  = match geoadd_res s with
    | None =>
        <["fleet:locations" :=
            <[pb.CarId f := (pb.Longitude f, pb.Latitude f)]>
              (default ∅ (geo w !! "fleet:locations"))]> (geo w)
    | Some _ => geo w
    end.
Proof.
  cases s; run; reflexivity.
Qed.

Lemma process_hashes s f w :
  hashes (process s f w).2
  = match geoadd_res s, hset_res s with
    | None, None =>
        <["car:" +:+ pb.CarId f :=
            metadata_of f ∪ default ∅ (metadata w (pb.CarId f))]> (hashes w)
    | _, _ => hashes w
    end.
Proof.
  unfold metadata, metadata_of. rewrite <- Sprintf_car_key.
  cases s; run; reflexivity.
Qed.

(** One frame, when the store accepts its writes: the agent's position
    is the frame's, the three fields of its hash are the frame's. *)
Lemma process_location s f w :
  geoadd_res s = None ->
  location (process s f w).2 (pb.CarId f)
  = Some (pb.Longitude f, pb.Latitude f).
Proof.
  intros Hg. unfold location. rewrite process_geo, Hg.
  rewrite lookup_insert_eq. cbn. apply lookup_insert_eq.
Qed.

Lemma process_location_other s f w id :
  pb.CarId f <> id ->
  location (process s f w).2 id = location w id.
Proof.
  intros Hne. unfold location. rewrite process_geo.
  destruct (geoadd_res s); [reflexivity|].
  rewrite lookup_insert_eq. cbn. rewrite lookup_insert_ne by assumption.
  now destruct (geo w !! "fleet:locations").
Qed.

Lemma process_metadata s f w :
  geoadd_res s = None -> hset_res s = None ->
  gateway_only w ->
  metadata (process s f w).2 (pb.CarId f) = Some (metadata_of f).
Proof.
  intros Hg Hh Hclean. unfold metadata at 1.
  rewrite process_hashes, Hg, Hh, lookup_insert_eq. f_equal.
  apply union_covered. rewrite dom_metadata_of.
  destruct (metadata w (pb.CarId f)) as [h|] eqn:Hm; cbn.
  - now apply (Hclean _ _ Hm).
  - rewrite dom_empty_L. set_solver.
Qed.

Lemma process_metadata_other s f w id :
  pb.CarId f <> id ->
  metadata (process s f w).2 id = metadata w id.
Proof.
  intros Hne. unfold metadata at 1. rewrite process_hashes.
  destruct (geoadd_res s), (hset_res s); try reflexivity.
  apply lookup_insert_ne. intros H. now apply car_key_inj in H.
Qed.

Lemma process_gateway_only s f w :
  gateway_only w -> gateway_only (process s f w).2.
Proof.
  intros Hclean id h. unfold metadata at 1. rewrite process_hashes.
  destruct (geoadd_res s), (hset_res s); try apply Hclean.
  destruct (decide (pb.CarId f = id)) as [<-|Hne].
  - rewrite lookup_insert_eq. intros Heq. injection Heq as <-.
    rewrite dom_union_L, dom_metadata_of.
    destruct (metadata w (pb.CarId f)) as [h|] eqn:Hm; cbn.
    + apply union_least; [reflexivity | exact (Hclean _ _ Hm)].
    + rewrite dom_empty_L.
      apply union_least; [reflexivity | apply empty_subseteq].
  - rewrite lookup_insert_ne; [apply Hclean|].
    intros H. now apply car_key_inj in H.
Qed.

Lemma last_frame_None_cons id f s rest :
  last_frame id ((f, s) :: rest) = None ->
  pb.CarId f <> id /\ last_frame id rest = None.
Proof.
  cbn. destruct (last_frame id rest); [discriminate|].
  destruct (String.eqb (pb.CarId f) id) eqn:E; [discriminate|].
  intros _. split; [|reflexivity]. now apply String.eqb_neq.
Qed.

(** A session leaves the record of an agent it has no frame of as it
    was. *)
Lemma receive_other frames closing w id :
  last_frame id frames = None ->
  location (receive frames closing w).2 id = location w id
  /\ metadata (receive frames closing w).2 id = metadata w id.
Proof.
  revert w. induction frames as [|[f s] rest IH]; intros w Hlast.
  - rewrite receive_nil. split; reflexivity.
  - apply last_frame_None_cons in Hlast as [Hne Hlast].
    rewrite receive_cons. cbn zeta.
    destruct (send_res s).
    + unfold log_Printf, log_Println. cbn [snd].
      change (location ?w' id) with (geo w' !! "fleet:locations" ≫= (.!! id)).
      change (metadata ?w' id) with (hashes w' !! ("car:" +:+ id)).
      cbn [geo hashes].
      fold (location (process s f (called (Recv (inl f)) w).2).2 id).
      fold (metadata (process s f (called (Recv (inl f)) w).2).2 id).
      rewrite (process_location_other s f _ id Hne),
        (process_metadata_other s f _ id Hne).
      split; reflexivity.
    + destruct (IH (process s f (called (Recv (inl f)) w).2).2 Hlast)
        as [-> ->].
      rewrite (process_location_other s f _ id Hne),
        (process_metadata_other s f _ id Hne).
      split; reflexivity.
Qed.

Lemma receive_last frames closing w id f :
  Forall store_accepts frames ->
  gateway_only w ->
  last_frame id frames = Some f ->
  location (receive frames closing w).2 id
  = Some (pb.Longitude f, pb.Latitude f)
  /\ metadata (receive frames closing w).2 id = Some (metadata_of f).
Proof.
  intros Hok. revert w.
  induction Hok as [|[f1 s1] rest (Hg & Hh & Hs) _ IH]; intros w Hclean Hlast.
  - discriminate.
  - cbn [fst snd] in *. rewrite receive_cons, Hs. cbn zeta.
    set (w1 := (process s1 f1 (called (Recv (inl f1)) w).2).2).
    assert (gateway_only w1) as Hclean1 by now apply process_gateway_only.
    cbn [last_frame fst] in Hlast.
    destruct (last_frame id rest) as [f'|] eqn:Hrest.
    + injection Hlast as <-. now apply IH.
    + destruct (String.eqb (pb.CarId f1) id) eqn:E; [|discriminate].
      injection Hlast as <-. apply String.eqb_eq in E. subst id.
      destruct (receive_other rest closing w1 _ Hrest) as [-> ->].
      split; [now apply process_location | now apply process_metadata].
Qed.

End RecordFacts.

Module RecordSpec.
Import Go Fmt Ingestion Observe Samples FmtFacts FrameFacts SessionFacts.
Import RecordFacts.

(** C5. On a session during which the index store accepts the writes,
    started on a store whose agent hashes hold no foreign field: when the
    session ends, the geospatial set [fleet:locations] holds, for every
    agent the session has a frame of, the longitude and latitude of the
    agent's last frame under the agent identifier, and the hash
    [car:{agent id}] holds exactly the battery, the velocity and the
    timestamp of that last frame.  An earlier frame of the agent leaves
    nothing behind. *)
Theorem positional_record_is_last_write (ss : ServerStream) (w : World)
    (id : string) (f : pb.CarStatus) :
  Forall store_accepts (incoming ss) ->
  gateway_only w ->
  last_frame id (incoming ss) = Some f ->
  let w' := (StreamTelemetry ss w).2 in
  geo w' !! "fleet:locations" ≫= (.!! id)
  = Some (pb.Longitude f, pb.Latitude f)
  /\ hashes w' !! ("car:" +:+ id)
     = Some (<["battery" := redis.VFloat (pb.BatteryLevel f)]>
             (<["velocity" := redis.VFloat (pb.Velocity f)]>
              (<["timestamp" := redis.VInt (pb.Timestamp f)]> ∅))).
Proof.
  intros Hok Hclean Hlast w'. subst w'. rewrite StreamTelemetry_receive.
  apply (receive_last _ _ _ id f Hok); [|assumption].
  exact Hclean.
Qed.

Lemma positional_record_is_last_write_witness :
  let w' := (StreamTelemetry stored_session empty_world).2 in
  geo w' !! "fleet:locations" ≫= (.!! "CAR-001")
  = Some (pb.Longitude car001_later, pb.Latitude car001_later)
  /\ hashes w' !! ("car:" +:+ "CAR-001")
     = Some (<["battery" := redis.VFloat (pb.BatteryLevel car001_later)]>
             (<["velocity" := redis.VFloat (pb.Velocity car001_later)]>
              (<["timestamp" := redis.VInt (pb.Timestamp car001_later)]>
               ∅))).
Proof.
  apply (positional_record_is_last_write stored_session empty_world
           "CAR-001" car001_later).
  - repeat constructor.
  - intros id h H. vm_compute in H. discriminate H.
  - vm_compute. reflexivity.
Defined.

(** The end-to-end scenario: after the one frame of CAR-001 the index
    store locates it at (40.7234, -73.9876) with battery 85.3. *)
Example scenario_index_entry :
  let w := (process (all_well 1701532800100) car001 empty_world).2 in
  location w "CAR-001" = Some (of_decimal (-739876) 4, of_decimal 407234 4)
  /\ (metadata w "CAR-001" ≫= (.!! "battery"))
     = Some (redis.VFloat (of_decimal 853 1))
  /\ (metadata w "CAR-001" ≫= (.!! "velocity"))
     = Some (redis.VFloat (of_decimal 452 1))
  /\ (metadata w "CAR-001" ≫= (.!! "timestamp"))
     = Some (redis.VInt 1701532800000)
  /\ (dom <$> metadata w "CAR-001") = Some metadata_fields.
Proof. cbv zeta. repeat apply conj; vm_compute; reflexivity. Qed.

End RecordSpec.

(* ================================================================== *)
(** * Reading back what [fmt] wrote *)
(* ================================================================== *)

Module JsonFacts.
Import Go Fmt Json Render FmtFacts.

Lemma digits_app d rest :
  all_digits d = true -> stops rest = true ->
  digits (d +:+ rest) = (d, rest).
Proof.
  intros Hd Hr. induction d as [|c d IH]; cbn in *.
  - destruct rest as [|c r]; [reflexivity|]. cbn in *.
    apply negb_true_iff in Hr. now rewrite Hr.
  - apply andb_prop in Hd as [Hc Hd]. rewrite Hc, (IH Hd). reflexivity.
Qed.

Lemma plain_char_cases c :
  plain_char c = true ->
  Ascii.eqb c dquote = false /\ Ascii.eqb c backslash = false
  /\ (N_of_ascii c <? 32)%N = false.
Proof.
  unfold plain_char. intros H.
  apply andb_prop in H as [H H3]. apply andb_prop in H as [H1 H2].
  apply negb_true_iff in H1, H2, H3. auto.
Qed.

Lemma string_body_plain s rest :
  plain s = true ->
  string_body (s +:+ String dquote rest) = Some (s, rest).
Proof.
  induction s as [|c s IH]; cbn [plain String.append]; intros H.
  - reflexivity.
  - apply andb_prop in H as [Hc Hs].
    destruct (plain_char_cases c Hc) as (H1 & H2 & H3).
    cbn [string_body]. rewrite H1, H2, H3, (IH Hs). reflexivity.
Qed.

Lemma uint_digits d : all_digits (NilEmpty.string_of_uint d) = true.
Proof. induction d; cbn; auto. Qed.

Lemma to_uint_normal n : Decimal.unorm (N.to_uint n) = N.to_uint n.
Proof.
  rewrite <- (DecimalN.Unsigned.of_to n) at 2.
  now rewrite DecimalN.Unsigned.to_of.
Qed.

Lemma dec_N_shape n :
  dec_N n = "0"%string
  \/ exists c ds, dec_N n = String c ds /\ is_digit c = true
        /\ Ascii.eqb c "0" = false /\ all_digits ds = true.
Proof.
  unfold dec_N. pose proof (to_uint_normal n) as Hn.
  pose proof (nzhead_nonzero (N.to_uint n)) as Hnz.
  unfold Decimal.unorm in Hn.
  destruct (Decimal.nzhead (N.to_uint n)) as [|u|u|u|u|u|u|u|u|u|u] eqn:E;
    rewrite <- Hn; cbn;
    try (right; eexists _, _; repeat split; apply uint_digits).
  - now left.
  - now destruct (Hnz u).
Qed.

Lemma all_digits_app a b :
  all_digits (a +:+ b) = all_digits a && all_digits b.
Proof.
  induction a as [|c a IH]; cbn; [reflexivity|].
  now rewrite IH, andb_assoc.
Qed.

Lemma is_digit_digit n : is_digit (digit n) = true.
Proof.
  unfold is_digit, digit.
  pose proof (N.mod_lt n 10 ltac:(discriminate)) as H.
  revert H. generalize (n mod 10)%N. intros m H.
  rewrite N_ascii_embedding by lia.
  apply andb_true_intro. split; apply N.leb_le; lia.
Qed.

Lemma low_digits_digits k n : all_digits (low_digits k n) = true.
Proof.
  revert n. induction k as [|k IH]; intros n; cbn; [reflexivity|].
  rewrite all_digits_app, IH. cbn. now rewrite is_digit_digit.
Qed.

Lemma low_digits_nonempty k n :
  exists c d, low_digits (S k) n = String c d.
Proof.
  cbn. destruct (low_digits k (n / 10)); cbn; eauto.
Qed.

(** Characters: a digit and a delimiter are not what the reader of a
    value looks for first. *)
Lemma digit_char c :
  is_digit c = true ->
  is_ws c = false /\ Ascii.eqb c "{" = false /\ Ascii.eqb c "[" = false
  /\ Ascii.eqb c dquote = false /\ Ascii.eqb c "-" = false
  /\ Ascii.eqb c "." = false.
Proof.
  destruct c as [[] [] [] [] [] [] [] []]; intros H;
    try discriminate H; repeat split.
Qed.

Lemma delimiter_char c :
  delimiter c = true ->
  is_digit c = false /\ is_ws c = false /\ Ascii.eqb c "." = false
  /\ (Ascii.eqb c "e" || Ascii.eqb c "E") = false.
Proof.
  destruct c as [[] [] [] [] [] [] [] []]; intros H;
    try discriminate H; repeat split.
Qed.

Lemma number_int_dec n rest :
  stops rest = true ->
  number_int (dec_N n +:+ rest) = Some (dec_N n, rest).
Proof.
  intros Hrest.
  destruct (dec_N_shape n) as [->|(c & ds & -> & Hc & Hz & Hds)].
  - reflexivity.
  - cbn. rewrite Hz, Hc, (digits_app ds rest Hds Hrest). reflexivity.
Qed.

Lemma number_frac_low k n c r :
  delimiter c = true ->
  number_frac (String "." (low_digits (S k) n +:+ String c r))
  = Some (String "." (low_digits (S k) n), String c r).
Proof.
  intros Hc. destruct (delimiter_char c Hc) as (Hd & _).
  cbn [number_frac]. cbn [Ascii.eqb Bool.eqb].
  rewrite digits_app; [|apply low_digits_digits|cbn; now rewrite Hd].
  destruct (low_digits_nonempty k n) as (c0 & d & ->). reflexivity.
Qed.

Lemma number_exp_none c r :
  delimiter c = true ->
  number_exp (String c r) = Some (EmptyString, String c r).
Proof.
  intros Hc. destruct (delimiter_char c Hc) as (_ & _ & _ & He).
  cbn. now rewrite He.
Qed.

Lemma dec_N_first n :
  exists c d, dec_N n = String c d /\ is_digit c = true.
Proof.
  destruct (dec_N_shape n) as [->|(c & ds & -> & Hc & _)]; eauto.
Qed.

(** The text of a finite [float64] under [%.pf], [p > 0], is read
    back as one number up to the delimiter that follows it. *)
Lemma number_fixed (s : bool) k n c r :
  delimiter c = true ->
  number ((sign s +:+ fixed (S k) n) +:+ String c r)
  = Some (sign s +:+ fixed (S k) n, String c r).
Proof.
  intros Hc. unfold fixed. set (q := (n / 10 ^ N.of_nat (S k))%N).
  set (m := (n mod 10 ^ N.of_nat (S k))%N).
  assert (Hint : number_int
            ((dec_N q +:+ String "." (low_digits (S k) m)) +:+ String c r)
          = Some (dec_N q, String "." (low_digits (S k) m +:+ String c r))).
  { rewrite append_assoc. cbn [String.append]. now apply number_int_dec. }
  unfold number. destruct s; cbn [sign String.append].
  - cbn [Ascii.eqb Bool.eqb]. rewrite Hint, number_frac_low, number_exp_none by assumption.
    cbn [String.append]. now rewrite append_empty.
  - destruct (dec_N_first q) as (c0 & d & Hq & Hc0).
    destruct (digit_char c0 Hc0) as (_ & _ & _ & _ & Hminus & _).
    rewrite Hq in *. cbn [String.append] in *. rewrite Hminus.
    rewrite Hint, number_frac_low, number_exp_none by assumption.
    cbn [String.append]. now rewrite append_empty.
Qed.

Lemma number_dec_Z z c r :
  delimiter c = true ->
  number (dec_Z z +:+ String c r) = Some (dec_Z z, String c r).
Proof.
  intros Hc.
  assert (Hd : stops (String c r) = true).
  { cbn. destruct (delimiter_char c Hc) as (-> & _). reflexivity. }
  assert (Hu : forall n, number (dec_N n +:+ String c r)
                         = Some (dec_N n, String c r)).
  { intros n. unfold number.
    destruct (dec_N_first n) as (c0 & d & Hn & Hc0).
    destruct (digit_char c0 Hc0) as (_ & _ & _ & _ & Hminus & _).
    pose proof (number_int_dec n (String c r) Hd) as Hint.
    rewrite Hn in *. cbn [String.append] in *. rewrite Hminus, Hint.
    cbn [number_frac]. destruct (delimiter_char c Hc) as (_ & _ & -> & _).
    rewrite number_exp_none by assumption.
    cbn [String.append]. now rewrite !append_empty. }
  destruct z as [|p|p]; cbn [dec_Z]; try apply Hu.
  unfold number. cbn [String.append]. cbn [Ascii.eqb Bool.eqb].
  rewrite (number_int_dec _ _ Hd). cbn [number_frac].
  destruct (delimiter_char c Hc) as (_ & _ & -> & _).
  rewrite number_exp_none by assumption.
  cbn [String.append]. now rewrite !append_empty.
Qed.

Lemma reads_back_string s : plain s = true -> reads_back (SString s).
Proof.
  intros Hs fuel c r _. cbn [render_scalar scalar_json value].
  cbn [skip_ws]. change (is_ws dquote) with false. cbv iota.
  change (Ascii.eqb dquote "{") with false.
  change (Ascii.eqb dquote "[") with false.
  change (Ascii.eqb dquote dquote) with true. cbv iota.
  now rewrite string_body_plain.
Qed.

(** A text that starts with a minus sign or a digit and is one number is
    read back as that number. *)
Lemma value_number fuel t rest :
  (exists c0 t', t = String c0 t'
     /\ (Ascii.eqb c0 "-" = true \/ is_digit c0 = true)) ->
  number (t +:+ rest) = Some (t, rest) ->
  value (S fuel) (t +:+ rest) = Some (JNumber t, rest).
Proof.
  intros (c0 & t' & -> & Hc0) Hnum. cbn [String.append] in *.
  assert (is_ws c0 = false /\ Ascii.eqb c0 "{" = false
          /\ Ascii.eqb c0 "[" = false /\ Ascii.eqb c0 dquote = false
          /\ (Ascii.eqb c0 "-" || is_digit c0) = true)
    as (H1 & H2 & H3 & H4 & H5).
  { destruct Hc0 as [Hm|Hd].
    - apply Ascii.eqb_eq in Hm. subst c0. repeat split.
    - destruct (digit_char c0 Hd) as (? & ? & ? & ? & ? & ?).
      rewrite Hd, orb_true_r. repeat split; assumption. }
  cbn [value skip_ws]. rewrite H1, H2, H3, H4, H5, Hnum. reflexivity.
Qed.

Lemma fmtFloat_first k x :
  is_finite x = true ->
  exists c0 t', fmtFloat (S k) x = String c0 t'
    /\ (Ascii.eqb c0 "-" = true \/ is_digit c0 = true).
Proof.
  assert (H : forall s n, exists c0 t',
             sign s +:+ fixed (S k) n = String c0 t'
             /\ (Ascii.eqb c0 "-" = true \/ is_digit c0 = true)).
  { intros [] n; cbn [sign String.append]; [eauto|].
    unfold fixed. destruct (dec_N_first (n / 10 ^ N.of_nat (S k)))
      as (c0 & d & -> & Hc0). cbn [String.append]. eauto. }
  destruct x; try discriminate; intros _; apply H.
Qed.

Lemma reads_back_float k x :
  is_finite x = true -> reads_back (SNumber (fmtFloat (S k) x)).
Proof.
  intros Hx fuel c r Hc. cbn [render_scalar scalar_json].
  apply value_number; [now apply fmtFloat_first|].
  destruct x; try discriminate; apply number_fixed; assumption.
Qed.

Lemma reads_back_int z : reads_back (SNumber (dec_Z z)).
Proof.
  intros fuel c r Hc. cbn [render_scalar scalar_json].
  apply value_number; [|now apply number_dec_Z].
  destruct z as [|p|p]; cbn [dec_Z]; [| |eauto].
  - destruct (dec_N_first (Z.to_N 0)) as (c0 & d & -> & Hc0). eauto.
  - destruct (dec_N_first (Z.to_N (Z.pos p))) as (c0 & d & -> & Hc0). eauto.
Qed.

Lemma members_render ms rest fuel :
  ms <> [] -> Forall member_ok ms -> (length ms < fuel)%nat ->
  members fuel (render_members ms rest)
  = Some (map (fun kv => (kv.1, scalar_json kv.2)) ms, rest).
Proof.
  intros Hne Hok. revert fuel Hne.
  induction Hok as [|[k v] ms' [Hk Hv] Hok IH]; intros fuel Hne Hlen;
    [congruence|].
  cbn [fst snd] in *. cbn [length] in Hlen.
  destruct fuel as [|fuel]; [lia|].
  cbn [render_members members skip_ws].
  destruct fuel as [|fuel]; [lia|].
  change (is_ws dquote) with false. cbv iota.
  change (Ascii.eqb dquote dquote) with true. cbv iota.
  rewrite (string_body_plain k _ Hk). cbn [skip_ws].
  change (is_ws ":") with false. cbv iota.
  change (Ascii.eqb ":" ":") with true. cbv iota.
  destruct ms' as [|kv ms''].
  - cbn [render_members]. rewrite (Hv fuel "}"%char rest eq_refl).
    cbn [skip_ws]. change (is_ws "}") with false. cbv iota.
    change (Ascii.eqb "}" ",") with false.
    change (Ascii.eqb "}" "}") with true. cbv iota. reflexivity.
  - rewrite (Hv fuel ","%char _ eq_refl).
    cbn [skip_ws]. change (is_ws ",") with false. cbv iota.
    change (Ascii.eqb "," ",") with true. cbv iota.
    rewrite IH; [reflexivity|discriminate|cbn [length] in *; lia].
Qed.

Theorem value_render_object ms rest fuel :
  ms <> [] -> Forall member_ok ms -> (length ms < fuel)%nat ->
  value (S fuel) (render_object ms rest)
  = Some (JObject (map (fun kv => (kv.1, scalar_json kv.2)) ms), rest).
Proof.
  intros Hne Hok Hlen. unfold render_object. cbn [value skip_ws].
  change (is_ws "{") with false. cbv iota.
  change (Ascii.eqb "{" "{") with true. cbv iota.
  rewrite (members_render ms rest fuel Hne Hok Hlen).
  destruct ms as [|[k v] ms']; [congruence|].
  cbn [render_members skip_ws].
  change (is_ws dquote) with false. cbv iota.
  change (Ascii.eqb dquote "}") with false. cbv iota. reflexivity.
Qed.

(** The reader on texts that are not flat: nesting, white space,
    escapes and exponents are read; a leading zero, a trailing comma, a
    missing comma and an unescaped line feed are refused. *)
Example reads_nested :
  parse 20 (raw "{'a': [1, -2.5e+3, true, null], 'b': {'c': 'x\n\u00e9'}} ")
  = Some (JObject
            [("a", JArray [JNumber "1"; JNumber "-2.5e+3"; JBool true;
                           JNull]);
             ("b", JObject [("c", JString "x\n\u00e9")])]).
Proof. vm_compute. reflexivity. Qed.

Example refuses_malformed :
  parse 20 (raw "{'a':01}") = None
  /\ parse 20 (raw "{'a':1,}") = None
  /\ parse 20 (raw "[1 2]") = None
  /\ parse 20 (String dquote (String (ascii_of_N 10) (String dquote
                 EmptyString))) = None
  /\ parse 20 (raw "{'a':NaN}") = None
  /\ parse 20 (raw "{'a':+Inf}") = None.
Proof. vm_compute. repeat split. Qed.

End JsonFacts.

(* ================================================================== *)
(** * The published event *)
(* ================================================================== *)

Module EventSpec.
Import Go Fmt Json Render Ingestion Observe Samples FmtFacts JsonFacts.

(** The value of the message is the object of the frame's seven
    members, written without escaping. *)
Lemma telemetry_value_render now f :
  kafka.Value (telemetry_message now f)
  = render_object (telemetry_members f) EmptyString.
Proof. reflexivity. Qed.

Lemma telemetry_members_ok f :
  plain (pb.CarId f) = true -> finite_frame f = true ->
  Forall member_ok (telemetry_members f).
Proof.
  intros Hid Hfin. unfold finite_frame in Hfin.
  apply andb_prop in Hfin as [Hfin Hv]. apply andb_prop in Hfin as [Hfin Hb].
  apply andb_prop in Hfin as [Hla Hlo]. unfold telemetry_members.
  repeat (constructor; [split; [reflexivity|]|]);
    try constructor; cbn [snd];
    auto using reads_back_string, reads_back_float, reads_back_int.
Qed.

Lemma event_of_plain_id now f :
  plain (pb.CarId f) = true -> finite_frame f = true ->
  parses_to (kafka.Value (telemetry_message now f)) (telemetry_event f).
Proof.
  intros Hid Hfin. exists 9%nat. unfold parse.
  rewrite telemetry_value_render.
  rewrite (value_render_object (telemetry_members f) EmptyString 8).
  - reflexivity.
  - discriminate.
  - now apply telemetry_members_ok.
  - cbn. lia.
Qed.

(** C4, at a frame the gateway can receive: the agent identifier
    [CAR-"007"].  The key of the message is the identifier, and its
    value is not a JSON text. *)
Theorem quoted_id_event_is_not_json (now : Z) :
  kafka.Key (telemetry_message now quoted_id) = pb.CarId quoted_id
  /\ ~ well_formed (kafka.Value (telemetry_message now quoted_id)).
Proof.
  split; [reflexivity|].
  intros (v & fuel & H). unfold parse in H.
  destruct fuel as [|[|[|fuel]]]; vm_compute in H; discriminate H.
Qed.

(** The same at a frame whose latitude is not a number. *)
Example nan_event_is_not_json :
  ~ well_formed (kafka.Value (telemetry_message 0 nan_latitude)).
Proof.
  intros (v & fuel & H). unfold parse in H.
  destruct fuel as [|[|[|[|fuel]]]]; vm_compute in H; discriminate H.
Qed.

(** The event of the end-to-end scenario. *)
Example scenario_event :
  kafka.Value (telemetry_message 0 car001)
  = raw "{'car_id':'CAR-001','lat':40.723400,'lon':-73.987600,'battery':85.30,'velocity':45.20,'timestamp':1701532800000,'event_type':'telemetry'}".
Proof. vm_compute. reflexivity. Qed.

(** C10, as stated, fails: the identifier [a\\b] holds a backslash,
    the identifier [x","admin":"yes] holds double quotes, and the value
    published for either is a well-formed JSON object, the second with an
    eighth member. *)
Lemma special_ids_with_well_formed_events :
  plain (pb.CarId escaped_backslash_id) = false
  /\ well_formed (kafka.Value (telemetry_message 0 escaped_backslash_id))
  /\ plain (pb.CarId injecting_id) = false
  /\ (exists ms,
        parses_to (kafka.Value (telemetry_message 0 injecting_id))
          (JObject ms)
        /\ length ms = 8%nat).
Proof.
  split; [reflexivity|]. split.
  - eexists. exists 9%nat. vm_compute. reflexivity.
  - split; [reflexivity|]. eexists. split.
    + exists 10%nat. vm_compute. reflexivity.
    + reflexivity.
Qed.

(** C10, amended.  The value is built without escaping the agent
    identifier.  For the identifier that is one double quote the value
    is not a JSON text.  For every frame whose agent identifier holds no
    double quote, backslash or control character and whose four numbers
    are finite, the value is a well-formed JSON object: the object of the
    members car_id, lat, lon, battery, velocity, timestamp and
    event_type, in this order, with the identifier, the numbers as
    printed and ["telemetry"]. *)
Theorem event_is_json_when_id_is_plain :
  ~ well_formed (kafka.Value (telemetry_message 0 lone_quote_id))
  /\ forall now f,
       plain (pb.CarId f) = true -> finite_frame f = true ->
       parses_to (kafka.Value (telemetry_message now f))
         (telemetry_event f).
Proof.
  split.
  - intros (v & fuel & H). unfold parse in H.
    destruct fuel as [|[|[|fuel]]]; vm_compute in H; discriminate H.
  - apply event_of_plain_id.
Qed.

Lemma event_is_json_when_id_is_plain_witness :
  parses_to (kafka.Value (telemetry_message 1701532800100 car001))
    (telemetry_event car001).
Proof.
  apply (proj2 event_is_json_when_id_is_plain 1701532800100 car001);
    vm_compute; reflexivity.
Defined.

End EventSpec.

(* ================================================================== *)
(** * The pricing oracle *)
(* ================================================================== *)

Module PricingSpec.
Import Go MockGrid Samples.

Lemma digits2_size p : digits2_pos p = Pos.size p.
Proof. induction p; cbn; congruence. Qed.

Lemma digits2_iter_xO q j :
  digits2_pos (Pos.iter xO q j) = (digits2_pos q + j)%positive.
Proof.
  induction j as [|j IH] using Pos.peano_ind.
  - cbn. now rewrite Pos.add_1_r.
  - rewrite Pos.iter_succ. cbn. now rewrite IH, Pos.add_succ_r.
Qed.

Lemma Npos_iter_xO q j :
  Npos (Pos.iter xO q j) = (Npos q * 2 ^ Npos j)%N.
Proof. rewrite <- N.shiftl_mul_pow2. reflexivity. Qed.

(** A canonical mantissa and exponent round to themselves. *)
Lemma shr_fexp_canonical m e :
  fexp prec emax (Zpos (digits2_pos m) + e) = e ->
  shr_fexp prec emax (Zpos m) e loc_Exact
  = ({| shr_m := Zpos m; shr_r := false; shr_s := false |}, e).
Proof.
  intros H. unfold shr_fexp. cbn [Zdigits2 shr_record_of_loc].
  rewrite H, Z.sub_diag. reflexivity.
Qed.

Lemma binary_round_aux_canonical s m e :
  fexp prec emax (Zpos (digits2_pos m) + e) = e -> e <= emax - prec ->
  binary_round_aux prec emax s (Zpos m) e loc_Exact = S754_finite s m e.
Proof.
  intros H Hle. unfold binary_round_aux.
  rewrite (shr_fexp_canonical m e H). cbn [shr_m loc_of_shr_record round_nearest_even].
  rewrite (shr_fexp_canonical m e H). cbn [shr_m].
  apply Z.leb_le in Hle. now rewrite Hle.
Qed.

(** An integer of at most 53 bits is a [float64]: its mantissa is the
    integer shifted to the left, its exponent undoes the shift. *)
Lemma binary_round_small s q :
  Zpos (digits2_pos q) <= 53 ->
  exists m e, binary_round prec emax s q 0 = S754_finite s m e
    /\ integral (S754_finite s m e) = true.
Proof.
  intros Hd. unfold binary_round.
  assert (Hf : fexp prec emax (Zpos (digits2_pos q) + 0)
               = Zpos (digits2_pos q) - 53).
  { unfold fexp, emin, prec, emax. lia. }
  rewrite Hf. unfold shl_align.
  destruct (Zpos (digits2_pos q) - 53 - 0) as [|j|j] eqn:Hj; [|lia|].
  - exists q, 0. split; [|reflexivity].
    apply binary_round_aux_canonical; unfold fexp, emin, prec, emax; lia.
  - exists (Pos.iter xO q j), (Zneg j).
    assert (Zpos (digits2_pos q) - 53 = Zneg j) as -> by lia.
    split.
    + apply binary_round_aux_canonical.
      * rewrite digits2_iter_xO. unfold fexp, emin, prec, emax. lia.
      * unfold prec, emax. lia.
    + cbn [integral]. rewrite Npos_iter_xO. apply N.eqb_eq.
      apply N.Div0.mod_mul.
Qed.

Lemma canonical_bits m e :
  canonical_mantissa prec emax m e = true -> (Npos m < 2 ^ 53)%N.
Proof.
  unfold canonical_mantissa, fexp, emin, prec, emax. intros H.
  apply Z.eqb_eq in H.
  assert (Hs : Zpos (Pos.size m) <= 53).
  { rewrite <- digits2_size. lia. }
  pose proof (Pos.size_gt m) as Hgt.
  apply (Z.pow_le_mono_r 2) in Hs; [|lia].
  rewrite <- Pos2Z.inj_pow in Hs.
  change (2 ^ 53) with 9007199254740992 in Hs.
  change (2 ^ 53)%N with 9007199254740992%N. lia.
Qed.

Lemma small_bits q : (Npos q <= 2 ^ 52)%N -> Zpos (digits2_pos q) <= 53.
Proof.
  intros Hq. rewrite digits2_size.
  destruct (Z.le_gt_cases (Zpos (Pos.size q)) 53) as [H|H]; [exact H|].
  exfalso. pose proof (Pos.size_le q) as Hle.
  assert (Hs : 54 <= Zpos (Pos.size q)) by lia.
  apply (Z.pow_le_mono_r 2) in Hs; [|lia].
  rewrite <- Pos2Z.inj_pow in Hs.
  change (2 ^ 54) with 18014398509481984 in Hs.
  change (2 ^ 52)%N with 4503599627370496%N in Hq. lia.
Qed.

Theorem Round_integral x :
  valid_binary prec emax x = true -> is_finite x = true ->
  integral (Round x) = true.
Proof.
  destruct x as [s|s| |s m e]; try discriminate; [reflexivity|].
  intros Hvalid _. destruct e as [|k|k]; [reflexivity..|].
  cbn [Round valid_binary] in *. unfold bounded in Hvalid.
  apply andb_prop in Hvalid as [Hcanon _].
  apply canonical_bits in Hcanon.
  destruct ((2 * Npos m + 2 ^ Npos k) / (2 * 2 ^ Npos k))%N as [|q] eqn:Hq;
    [reflexivity|].
  assert (Hsmall : (Npos q <= 2 ^ 52)%N).
  { rewrite <- Hq.
    assert (2 <= 2 ^ Npos k)%N.
    { change 2%N with (2 ^ 1)%N at 1. apply N.pow_le_mono_r; lia. }
    apply N.Div0.div_le_upper_bound.
    revert Hcanon H. generalize (2 ^ Npos k)%N. intros P Hm HP.
    change (2 ^ 53)%N with 9007199254740992%N in Hm.
    change (2 ^ 52)%N with 4503599627370496%N. nia. }
  apply small_bits in Hsmall.
  destruct (binary_round_small s q Hsmall) as (m' & e' & Hr & Hi).
  destruct s; cbn [binary_normalize]; rewrite Hr; exact Hi.
Qed.

(** C9. The response of the oracle: the price is rounded by the oracle,
    it is a whole number of hundredths divided by 100 (when the price in
    hundredths is a finite [float64]); the load tier is Low, Medium or
    High; the source tag is one of the three strings Solar, Wind, Grid;
    the hour is the integer hour it was given. *)
Theorem pricing_response_shape (Sin : float64 -> float64)
    (hour unixMilli : Z) :
  valid_binary prec emax (hundredths Sin hour) = true ->
  is_finite (hundredths Sin hour) = true ->
  let r := handlePricing Sin hour unixMilli in
  (exists c, integral c = true /\ PricePerKwh r = fdiv c (of_Z 100))
  /\ In (GridLoad r) ["Low"; "Medium"; "High"]%string
  /\ In (EnergySource r) ["Solar"; "Wind"; "Grid"]%string
  /\ Hour r = hour.
Proof.
  intros Hvalid Hfinite r. subst r. cbn [handlePricing PricePerKwh GridLoad
    EnergySource Hour]. repeat split.
  - exists (Round (hundredths Sin hour)). split; [|reflexivity].
    now apply Round_integral.
  - unfold gridLoad.
    destruct (fgt (wave Sin hour) (of_decimal 35 2)); [cbn; tauto|].
    destruct (fgt (wave Sin hour) (of_decimal 25 2)); cbn; tauto.
  - unfold energySource.
    destruct ((8 <=? hour) && (hour <=? 18)); [cbn; tauto|].
    destruct ((19 <=? hour) && (hour <=? 22)); cbn; tauto.
Qed.

Lemma pricing_response_shape_witness :
  let r := handlePricing Sin_one 12 1701532800000 in
  (exists c, integral c = true /\ PricePerKwh r = fdiv c (of_Z 100))
  /\ In (GridLoad r) ["Low"; "Medium"; "High"]%string
  /\ In (EnergySource r) ["Solar"; "Wind"; "Grid"]%string
  /\ Hour r = 12.
Proof.
  apply (pricing_response_shape Sin_one 12 1701532800000);
    vm_compute; reflexivity.
Defined.

Example Round_halves_away_from_zero :
  Round (of_decimal 25 1) = of_Z 3
  /\ Round (of_decimal (-25) 1) = of_Z (-3)
  /\ Round (of_decimal 4 1) = S754_zero false
  /\ Round (of_decimal (-4) 1) = S754_zero true
  /\ Round (of_decimal 2925 2) = of_Z 29.
Proof. vm_compute. repeat split. Qed.

(** Noon, with the sine at its peak: 0.40 before the solar discount,
    0.36 after it and after the rounding.  Six in the morning, with the
    sine at zero: 0.25, which is not above 0.25. *)
Example price_at_noon :
  handlePricing Sin_one 12 1701532800000
  = {| Timestamp := 1701532800000; PricePerKwh := of_decimal 36 2;
       GridLoad := "High"; EnergySource := "Solar"; Hour := 12 |}.
Proof. vm_compute. reflexivity. Qed.

Example price_at_six :
  handlePricing Sin_zero 6 1701532800000
  = {| Timestamp := 1701532800000; PricePerKwh := of_decimal 25 2;
       GridLoad := "Low"; EnergySource := "Grid"; Hour := 6 |}.
Proof. vm_compute. reflexivity. Qed.

End PricingSpec.

(* ================================================================== *)
(** * The gateway: more of what the code shows *)
(* ================================================================== *)

Module GatewayMore.
Import Go Fmt Ingestion Observe Samples MoreSamples Session.
Import FmtFacts FrameFacts SessionFacts GatewaySpec RecordFacts.

Local Opaque Sprintf.

Lemma validateToken_carries ctx :
  carries_token ctx -> validateToken ctx = None.
Proof.
  intros (md & -> & Hhd). cbn.
  destruct (md_Get md "x-api-token") as [|token rest]; [discriminate|].
  cbn in Hhd. injection Hhd as ->. now rewrite String.eqb_refl.
Qed.

Lemma validateToken_refuses ctx :
  ~ carries_token ctx ->
  exists msg, validateToken ctx = Some (StatusError Unauthenticated msg).
Proof.
  intros Hno. unfold validateToken.
  destruct ctx as [md|]; [|eauto].
  destruct (md_Get md "x-api-token") as [|token rest] eqn:Hget; [eauto|].
  destruct (String.eqb token apiTokenValue) eqn:Heq; cbn; [|eauto].
  exfalso. apply Hno. exists md. split; [reflexivity|].
  rewrite Hget. cbn. apply String.eqb_eq in Heq. now subst.
Qed.

(** X1 ([authUnaryInterceptor]).  A unary call is gated like a stream:
    without the secret as first [x-api-token] value the interceptor
    answers with an [Unauthenticated] status and the handler does not run,
    so the world is as it was; with it the call is exactly the handler's
    call. *)
Theorem unary_calls_are_gated {Req Resp : Type}
    (ctx : option (gmap string (list string))) (req : Req)
    (handler : Req -> M (Resp + error)) (w : World) :
  (~ carries_token ctx ->
   exists err, authUnaryInterceptor ctx req handler w = (inr err, w)
               /\ status_Code err = Unauthenticated)
  /\ (carries_token ctx ->
      authUnaryInterceptor ctx req handler w = handler req w).
Proof.
  unfold authUnaryInterceptor. split.
  - intros Hno. destruct (validateToken_refuses ctx Hno) as [msg ->].
    eexists. split; reflexivity.
  - intros Hyes. now rewrite (validateToken_carries ctx Hyes).
Qed.

Lemma unary_calls_are_gated_witness :
  (exists err,
     authUnaryInterceptor (Some wrong_token) "ping" echo empty_world
     = (inr err, empty_world)
     /\ status_Code err = Unauthenticated)
  /\ authUnaryInterceptor (Some with_token) "ping" echo empty_world
     = echo "ping" empty_world.
Proof.
  split.
  - apply (proj1 (unary_calls_are_gated (Some wrong_token) "ping" echo
                    empty_world)).
    intros (md & Hmd & Hhead). injection Hmd as <-.
    vm_compute in Hhead. discriminate Hhead.
  - apply (proj2 (unary_calls_are_gated (Some with_token) "ping" echo
                    empty_world)).
    exists with_token. split; [reflexivity | vm_compute; reflexivity].
Defined.

(** X2 ([validateToken]).  Only the first value of [x-api-token] counts:
    two metadata whose first values agree (or that both have none) are
    validated alike, whatever further values and headers they carry; and
    every error of [validateToken] has the code [Unauthenticated]. *)
Theorem only_the_first_token_counts
    (md md' : gmap string (list string)) :
  head (md_Get md "x-api-token") = head (md_Get md' "x-api-token") ->
  validateToken (Some md) = validateToken (Some md')
  /\ forall err, validateToken (Some md) = Some err ->
                 status_Code err = Unauthenticated.
Proof.
  intros Hhd. unfold validateToken.
  destruct (md_Get md "x-api-token") as [|t r],
           (md_Get md' "x-api-token") as [|t' r']; cbn in Hhd;
    try discriminate Hhd.
  - split; [reflexivity|]. now intros err [= <-].
  - injection Hhd as <-. split; [reflexivity|].
    destruct (String.eqb t apiTokenValue); cbn; [discriminate|].
    now intros err [= <-].
Qed.

Lemma only_the_first_token_counts_witness :
  validateToken (Some wrong_token) = validateToken (Some wrong_token_alone).
Proof.
  refine (proj1 (only_the_first_token_counts wrong_token wrong_token_alone
                   _)).
  vm_compute. reflexivity.
Defined.


Lemma receive_result_any frames closing w :
  (receive frames closing w).1
  = Some (default closing (send_failure frames)).
Proof.
  revert w. induction frames as [|[f s] rest IH]; intros w.
  - reflexivity.
  - rewrite receive_cons. cbn [send_failure snd]. cbn zeta.
    destruct (send_res s); [reflexivity | apply IH].
Qed.

(** X4 ([StreamTelemetry]).  A session never ends with [nil]: the handler
    returns the error of the first [Send] that fails, and the error of the
    [Recv] that closes the stream when no [Send] fails. *)
Theorem session_always_ends_with_an_error (ss : ServerStream) (w : World) :
  (StreamTelemetry ss w).1
  = Some (default (closing ss) (send_failure (incoming ss))).
Proof. rewrite StreamTelemetry_receive. apply receive_result_any. Qed.

Lemma served_until before fs after err :
  Forall (fun x => send_res x.2 = None) before ->
  send_res fs.2 = Some err ->
  served (before ++ fs :: after) = before ++ [fs]
  /\ all_sent (before ++ fs :: after) = false
  /\ send_failure (before ++ fs :: after) = Some err.
Proof.
  intros Hb Hs. induction Hb as [|x before Hx _ (IH1 & IH2 & IH3)].
  - cbn [app served all_sent forallb send_failure]. rewrite Hs.
    rewrite bool_decide_eq_false_2 by discriminate. repeat split.
  - cbn [app served all_sent forallb send_failure].
    fold (all_sent (before ++ fs :: after)).
    rewrite Hx, IH1, IH2, IH3, andb_false_r. repeat split.
Qed.

Lemma receive_delivered_any frames closing w :
  delivered (receive frames closing w).2
  = delivered w
    ++ map (fun fs => acknowledgment fs.2 fs.1)
         (List.filter (fun fs => bool_decide (send_res fs.2 = None))
            (served frames)).
Proof.
  revert w. induction frames as [|[f s] rest IH]; intros w.
  - rewrite receive_nil. cbn. now rewrite app_nil_r.
  - rewrite receive_cons. cbn zeta. cbn [served List.filter snd fst].
    destruct (send_res s) as [err|] eqn:Hs.
    + rewrite bool_decide_eq_false_2 by discriminate.
      unfold log_Printf, log_Println. cbn [snd delivered List.filter map].
      rewrite process_delivered, Hs. reflexivity.
    + rewrite bool_decide_eq_true_2 by reflexivity. cbn [map fst snd].
      rewrite IH, process_delivered, Hs. cbn [called snd delivered].
      now rewrite <- app_assoc.
Qed.

(** X3 ([StreamTelemetry]).  A [Send] that fails ends the session at once
    with its error: the frames behind it are never received (the calls are
    those of the rounds up to the failing one, and no [Recv] follows), and
    the peer holds the acknowledgments of the frames before it. *)
Theorem failed_send_ends_the_session (ss : ServerStream) (w : World)
    (before after : list (pb.CarStatus * Answers))
    (fs : pb.CarStatus * Answers) (err : error) :
  incoming ss = before ++ fs :: after ->
  Forall (fun x => send_res x.2 = None) before ->
  send_res fs.2 = Some err ->
  let w' := (StreamTelemetry ss w).2 in
  (StreamTelemetry ss w).1 = Some err
  /\ calls w' = calls w ++ flat_map round_calls (before ++ [fs])
  /\ delivered w'
     = delivered w ++ map (fun x => acknowledgment x.2 x.1) before.
Proof.
  intros Hin Hb Hs w'. subst w'.
  destruct (served_until before fs after err Hb Hs) as (Hsv & Hall & Hfail).
  rewrite !StreamTelemetry_receive, receive_result_any.
  rewrite receive_calls, receive_delivered_any, Hin, Hsv, Hall, Hfail.
  repeat split.
  - now rewrite app_nil_r.
  - cbn [log_Println snd delivered]. f_equal.
    rewrite List.filter_app. cbn [List.filter].
    rewrite Hs, bool_decide_eq_false_2 by discriminate.
    rewrite app_nil_r. f_equal.
    clear -Hb. induction Hb as [|x l Hx _ IH]; [reflexivity|].
    cbn [List.filter]. rewrite Hx, bool_decide_eq_true_2 by reflexivity.
    now rewrite IH.
Qed.

Lemma failed_send_ends_the_session_witness :
  (StreamTelemetry broken_session empty_world).1
  = Some (ClientError "transport is closing").
Proof.
  refine (proj1 (failed_send_ends_the_session broken_session empty_world
                   [(car001, all_well 1701532800100)]
                   [(car001_later, all_well 1701532801100)]
                   (car002, send_down 1701532800600)
                   (ClientError "transport is closing") eq_refl _ eq_refl)).
  repeat constructor.
Defined.


(** X5 ([writeToRedis]).  When GEOADD fails there is no HSET: the only
    call is the GEOADD, the result is its error wrapped as
    [ERROR: GEOADD failed: <error>], and neither the geo index nor the
    hashes change. *)
Theorem failed_geoadd_skips_the_hash (s : Answers) (f : pb.CarStatus)
    (w : World) (e : error) :
  geoadd_res s = Some e ->
  let r := writeToRedis s f w in
  r.1 = Some (WrapError ("ERROR: GEOADD failed: " +:+ Error e) e)
  /\ calls r.2 = calls w ++ [geoadd_call s f]
  /\ geo r.2 = geo w /\ hashes r.2 = hashes w.
Proof.
  intros He r. subst r. unfold geoadd_call.
  destruct s as [g h wr sd t1 t2 t3]. cbn in He. subst g.
  unfold writeToRedis, redis_GeoAdd, called, bind, ret.
  cbn [fst snd geo hashes topic delivered logged calls geoadd_res].
  repeat split. unfold Errorf. f_equal.
  Transparent Sprintf. cbn. Opaque Sprintf. now rewrite append_empty.
Qed.

Lemma failed_geoadd_skips_the_hash_witness :
  hashes (writeToRedis (redis_down 1701532800100) car001 empty_world).2
  = hashes empty_world.
Proof.
  exact (proj2 (proj2 (proj2
           (failed_geoadd_skips_the_hash (redis_down 1701532800100) car001
              empty_world refused eq_refl)))).
Defined.

(** X6 ([StreamTelemetry], [writeToRedis]).  A session leaves the record
    of an agent that none of its frames names as it was: its location and
    its hash are after the session what they were before. *)
Theorem other_agents_are_untouched (ss : ServerStream) (w : World)
    (id : string) :
  last_frame id (incoming ss) = None ->
  let w' := (StreamTelemetry ss w).2 in
  location w' id = location w id /\ metadata w' id = metadata w id.
Proof.
  intros Hlast w'. subst w'. rewrite StreamTelemetry_receive.
  destruct (receive_other (incoming ss) (closing ss)
              (log_Println "INFO: New telemetry stream connected" w).2
              id Hlast) as [-> ->].
  split; reflexivity.
Qed.

Lemma other_agents_are_untouched_witness :
  location (StreamTelemetry stored_session empty_world).2 "CAR-009"
  = location empty_world "CAR-009".
Proof.
  refine (proj1 (other_agents_are_untouched stored_session empty_world
                   "CAR-009" _)).
  vm_compute. reflexivity.
Defined.

(** X7 ([writeToRedis]).  The upsert is idempotent: when the store
    accepts the writes, processing the same frame a second time leaves
    the geo index and the hashes as the first time left them. *)
Theorem upsert_is_idempotent (s1 s2 : Answers) (f : pb.CarStatus)
    (w : World) :
  geoadd_res s1 = None -> hset_res s1 = None ->
  geoadd_res s2 = None -> hset_res s2 = None ->
  let once := (process s1 f w).2 in
  let twice := (process s2 f once).2 in
  geo twice = geo once /\ hashes twice = hashes once.
Proof.
  intros Hg1 Hh1 Hg2 Hh2 once twice. subst once twice. split.
  - rewrite (process_geo s2), Hg2, (process_geo s1), Hg1.
    rewrite lookup_insert_eq. cbn [default from_option]. unfold id.
    now rewrite !insert_insert_eq.
  - rewrite (process_hashes s2), Hg2, Hh2. unfold metadata.
    rewrite (process_hashes s1), Hg1, Hh1. unfold metadata.
    rewrite lookup_insert_eq. cbn [default from_option]. unfold id.
    rewrite insert_insert_eq. f_equal.
    rewrite (assoc (∪)). now rewrite (idemp (∪) (metadata_of f)).
Qed.

Lemma upsert_is_idempotent_witness :
  hashes (process (all_well 1701532800200) car001
            (process (all_well 1701532800100) car001 empty_world).2).2
  = hashes (process (all_well 1701532800100) car001 empty_world).2.
Proof.
  exact (proj2 (upsert_is_idempotent (all_well 1701532800100)
                  (all_well 1701532800200) car001 empty_world
                  eq_refl eq_refl eq_refl eq_refl)).
Defined.

(** X18 ([writeToRedis]).  A failed HSET after a successful GEOADD tears
    the record: [writeToRedis] still returns [nil], the agent's location
    is the frame's, and every hash, the agent's too, is what it was. *)
Theorem failed_hset_tears_the_record (s : Answers) (f : pb.CarStatus)
    (w : World) (e : error) :
  geoadd_res s = None -> hset_res s = Some e ->
  let w' := (process s f w).2 in
  (writeToRedis s f w).1 = None
  /\ location w' (pb.CarId f) = Some (pb.Longitude f, pb.Latitude f)
  /\ forall id, metadata w' id = metadata w id.
Proof.
  intros Hg Hh w'. subst w'.
  split; [now rewrite writeToRedis_result, Hg|].
  split; [now apply process_location|].
  intros id. unfold metadata. now rewrite process_hashes, Hg, Hh.
Qed.

Lemma failed_hset_tears_the_record_witness :
  location
    (process (hset_down 1701532801100) car001_later
       (process (all_well 1701532800100) car001 empty_world).2).2 "CAR-001"
  = Some (pb.Longitude car001_later, pb.Latitude car001_later)
  /\ metadata
       (process (hset_down 1701532801100) car001_later
          (process (all_well 1701532800100) car001 empty_world).2).2
       "CAR-001"
     = metadata (process (all_well 1701532800100) car001 empty_world).2
         "CAR-001".
Proof.
  pose proof (failed_hset_tears_the_record (hset_down 1701532801100)
                car001_later
                (process (all_well 1701532800100) car001 empty_world).2
                refused eq_refl eq_refl) as (_ & Hloc & Hmeta).
  split; [exact Hloc | exact (Hmeta "CAR-001")].
Defined.


Lemma receive_topic frames closing w :
  Forall (fun fs => send_res fs.2 = None) frames ->
  topic (receive frames closing w).2 = topic w ++ published frames.
Proof.
  intros H. revert w. induction H as [|[f s] rest Hs _ IH]; intros w.
  - rewrite receive_nil. cbn. now rewrite app_nil_r.
  - rewrite receive_cons. cbn in Hs. rewrite Hs. cbn zeta.
    rewrite IH, process_topic. cbn [called snd topic published flat_map].
    cbn [fst snd]. now rewrite <- app_assoc.
Qed.

Lemma events_of_published id frames :
  events_of id (published frames) = published (frames_of id frames).
Proof.
  unfold events_of, frames_of, published.
  induction frames as [|[f s] rest IH]; [reflexivity|].
  cbn [flat_map List.filter fst snd]. rewrite List.filter_app, IH.
  destruct (String.eqb (pb.CarId f) id) eqn:E; cbn [flat_map fst snd];
    destruct (write_res s); cbn [List.filter app telemetry_message
      kafka.Key]; rewrite ?E; reflexivity.
Qed.

(** X8 ([StreamTelemetry], [emitToKafka]).  When no [Send] fails the bus
    holds, behind what it held, the events of the frames whose publish it
    accepted, in the order of arrival; and the events under one agent's
    key are the events of that agent's frames, in the order of its
    frames. *)
Theorem bus_keeps_the_order_of_arrival (ss : ServerStream) (w : World) :
  Forall (fun fs => send_res fs.2 = None) (incoming ss) ->
  let w' := (StreamTelemetry ss w).2 in
  topic w' = topic w ++ published (incoming ss)
  /\ forall id,
       events_of id (published (incoming ss))
       = published (frames_of id (incoming ss)).
Proof.
  intros H w'. subst w'. rewrite StreamTelemetry_receive.
  rewrite receive_topic by assumption. split; [reflexivity|].
  intros id. apply events_of_published.
Qed.

Lemma bus_keeps_the_order_of_arrival_witness :
  events_of "CAR-001" (published (incoming stored_session))
  = published (frames_of "CAR-001" (incoming stored_session)).
Proof.
  refine (proj2 (bus_keeps_the_order_of_arrival stored_session empty_world
                   _) "CAR-001").
  repeat constructor.
Defined.

Local Transparent Sprintf.

Lemma received_line f :
  Sprintf
    "📍 Received telemetry from Car %s: Lat=%.4f, Lon=%.4f, Battery=%.1f%%"
    [AString (pb.CarId f); AFloat (pb.Latitude f);
     AFloat (pb.Longitude f); AFloat (pb.BatteryLevel f)]
  = "📍 Received telemetry from Car " +:+ pb.CarId f
     +:+ ": Lat=" +:+ fmtFloat 4 (pb.Latitude f)
     +:+ ", Lon=" +:+ fmtFloat 4 (pb.Longitude f)
     +:+ ", Battery=" +:+ fmtFloat 1 (pb.BatteryLevel f) +:+ "%".
Proof. reflexivity. Qed.

Lemma redis_failed_line e :
  Sprintf "⚠️  Redis write failed: %v"
    [AError (Errorf "ERROR: GEOADD failed: %w" e)]
  = "⚠️  Redis write failed: ERROR: GEOADD failed: " +:+ Error e.
Proof. cbn. now rewrite !append_empty. Qed.

Lemma kafka_failed_line e :
  Sprintf "⚠️  Kafka emit failed: %v" [AError e]
  = "⚠️  Kafka emit failed: " +:+ Error e.
Proof. cbn. now rewrite !append_empty. Qed.

Local Opaque Sprintf.

Lemma process_logged s f w :
  logged (process s f w).2 = logged w ++ frame_log s f.
Proof.
  unfold frame_log. rewrite <- received_line.
  destruct s as [[e1|] h [e2|] sd t1 t2 t3];
    cbn [geoadd_res write_res];
    rewrite <- ?redis_failed_line, <- ?kafka_failed_line;
    destruct h, sd; run; rewrite <- ?app_assoc; reflexivity.
Qed.

Local Transparent Sprintf.

Lemma stream_ended_line e :
  Sprintf "ERROR: Stream ended: %v" [AError e]
  = "ERROR: Stream ended: " +:+ Error e.
Proof. cbn. now rewrite !append_empty. Qed.

Local Opaque Sprintf.


Lemma grows_refl w : grows w w.
Proof.
  unfold grows. repeat split; try reflexivity; eauto.
Qed.

Lemma grows_trans w1 w2 w3 : grows w1 w2 -> grows w2 w3 -> grows w1 w3.
Proof.
  intros (A1 & B1 & C1 & D1 & E1 & F1) (A2 & B2 & C2 & D2 & E2 & F2).
  unfold grows. repeat split; try (etransitivity; eassumption); eauto.
  intros id h k Hm Hk. destruct (B1 id h k Hm Hk) as (h' & Hm' & Hk').
  eauto.
Qed.

Lemma process_grows s f w : grows w (process s f w).2.
Proof.
  unfold grows. repeat split.
  - intros id Hloc. destruct (decide (pb.CarId f = id)) as [<-|Hne].
    + unfold location in *. rewrite process_geo.
      destruct (geoadd_res s); [assumption|].
      rewrite lookup_insert_eq. cbn. rewrite lookup_insert_eq. eauto.
    + now rewrite process_location_other.
  - intros id h k Hm Hk. destruct (decide (pb.CarId f = id)) as [<-|Hne].
    + unfold metadata in *. rewrite process_hashes.
      destruct (geoadd_res s), (hset_res s); eauto.
      rewrite lookup_insert_eq. eexists. split; [reflexivity|].
      unfold metadata. rewrite Hm. cbn [default from_option]. unfold id.
      rewrite lookup_union. destruct Hk as [v ->].
      destruct (metadata_of f !! k); cbn; eauto.
    + rewrite process_metadata_other by assumption. eauto.
  - rewrite process_topic. now apply prefix_app_r.
  - rewrite process_delivered. now apply prefix_app_r.
  - rewrite process_logged. now apply prefix_app_r.
  - rewrite process_calls. now apply prefix_app_r.
Qed.

Lemma called_grows c w : grows w (called c w).2.
Proof.
  unfold grows. cbn. repeat split; try reflexivity; eauto.
  now apply prefix_app_r.
Qed.

Lemma log_grows line w : grows w (log_Println line w).2.
Proof.
  unfold grows. cbn. repeat split; try reflexivity; eauto.
  now apply prefix_app_r.
Qed.

Lemma receive_grows frames closing w : grows w (receive frames closing w).2.
Proof.
  revert w. induction frames as [|[f s] rest IH]; intros w.
  - rewrite receive_nil. unfold log_Printf.
    eapply grows_trans; [apply called_grows | apply log_grows].
  - rewrite receive_cons. cbn zeta.
    assert (grows w (process s f (called (Recv (inl f)) w).2).2) as H.
    { eapply grows_trans; [apply called_grows | apply process_grows]. }
    destruct (send_res s).
    + unfold log_Printf. cbn [snd].
      eapply grows_trans; [exact H | apply log_grows].
    + eapply grows_trans; [exact H | apply IH].
Qed.

(** X12 ([StreamTelemetry]).  A session only adds: whatever the
    collaborators answer, every agent that was located is still located,
    every field of an agent's hash is still there, and the bus, the
    acknowledgments of the peer, the log and the calls keep what they
    held as a prefix. *)
Theorem a_session_only_adds (ss : ServerStream) (w : World) :
  grows w (StreamTelemetry ss w).2.
Proof.
  rewrite StreamTelemetry_receive.
  eapply grows_trans; [apply log_grows | apply receive_grows].
Qed.


Lemma receive_logged frames closing w :
  Forall (fun fs => send_res fs.2 = None) frames ->
  logged (receive frames closing w).2
  = logged w ++ flat_map (fun fs => frame_log fs.2 fs.1) frames
    ++ ["ERROR: Stream ended: " +:+ Error closing].
Proof.
  intros H. revert w. induction H as [|[f s] rest Hs _ IH]; intros w.
  - rewrite receive_nil. unfold log_Printf. rewrite stream_ended_line.
    reflexivity.
  - rewrite receive_cons. cbn in Hs. rewrite Hs. cbn zeta.
    rewrite IH, process_logged. cbn [called snd logged flat_map fst].
    now rewrite <- !app_assoc.
Qed.

(** X9 ([StreamTelemetry]).  The log of a session whose sends succeed:
    the line of the connection, then for every frame the line of the
    frame as received, the line [Redis write failed] exactly when GEOADD
    failed and the line [Kafka emit failed] exactly when the publish
    failed, and last the line [Stream ended] with the error of [Recv].
    A failed HSET leaves no line. *)
Theorem failures_are_logged (ss : ServerStream) (w : World) :
  Forall (fun fs => send_res fs.2 = None) (incoming ss) ->
  logged (StreamTelemetry ss w).2
  = logged w ++ ["INFO: New telemetry stream connected"]
    ++ flat_map (fun fs => frame_log fs.2 fs.1) (incoming ss)
    ++ ["ERROR: Stream ended: " +:+ Error (closing ss)].
Proof.
  intros H. rewrite StreamTelemetry_receive, receive_logged by assumption.
  cbn [log_Println snd logged]. now rewrite <- app_assoc.
Qed.

Lemma failures_are_logged_witness :
  logged (StreamTelemetry (session (Some with_token)) empty_world).2
  = logged empty_world ++ ["INFO: New telemetry stream connected"]
    ++ flat_map (fun fs => frame_log fs.2 fs.1) frames3
    ++ ["ERROR: Stream ended: " +:+ Error EOF].
Proof.
  refine (failures_are_logged (session (Some with_token)) empty_world _).
  repeat constructor.
Defined.

(** *** The correlation identifier *)

Lemma dec_N_digits n : Render.all_digits (dec_N n) = true.
Proof.
  destruct (JsonFacts.dec_N_shape n) as [->|(c & ds & -> & Hc & _ & Hds)];
    [reflexivity|]. cbn. now rewrite Hc, Hds.
Qed.

Lemma no_dash_in_digits d a b :
  Render.all_digits d = true -> d <> a +:+ String "-" b.
Proof.
  revert a. induction d as [|c d IH]; intros a Hd Heq.
  - destruct a; discriminate.
  - cbn in Hd. apply andb_prop in Hd as [Hc Hd].
    destruct a as [|c' a]; cbn in Heq; injection Heq as -> Heq.
    + discriminate Hc.
    + now apply (IH a Hd).
Qed.

Lemma split_at_last_dash a d a' d' :
  Render.all_digits d = true -> Render.all_digits d' = true ->
  a +:+ String "-" d = a' +:+ String "-" d' -> a = a' /\ d = d'.
Proof.
  intros Hd Hd'. revert a'. induction a as [|c a IH]; intros a' Heq.
  - destruct a' as [|c' a']; cbn in Heq.
    + injection Heq as ->. now split.
    + injection Heq as <- Heq. now apply no_dash_in_digits in Heq.
  - destruct a' as [|c' a']; cbn in Heq.
    + injection Heq as -> Heq. symmetry in Heq.
      now apply no_dash_in_digits in Heq.
    + injection Heq as -> Heq. destruct (IH a' Heq) as [-> ->]. now split.
Qed.

Lemma to_uint_nonnil n : N.to_uint n <> Decimal.Nil.
Proof. rewrite <- JsonFacts.to_uint_normal. apply unorm_nonnil. Qed.

Lemma dec_N_inj n n' : dec_N n = dec_N n' -> n = n'.
Proof.
  unfold dec_N. intros H.
  assert (Some (N.to_uint n) = Some (N.to_uint n')) as Hu.
  { rewrite <- (NilZero.usu _ (to_uint_nonnil n)),
      <- (NilZero.usu _ (to_uint_nonnil n')), H. reflexivity. }
  injection Hu as Hu. now apply DecimalN.Unsigned.to_uint_inj.
Qed.

(** X10 ([StreamTelemetry]).  With a clock that is not before the epoch
    the [BookingId] names its agent and its instant: two acknowledgments
    with the same [BookingId] are for the same [CarId] and carry the same
    reading of the clock, also when the identifiers hold dashes. *)
Theorem correlation_id_names_agent_and_time (s s' : Answers)
    (f f' : pb.CarStatus) :
  0 <= now_id s -> 0 <= now_id s' ->
  pb.BookingId (acknowledgment s f) = pb.BookingId (acknowledgment s' f') ->
  pb.CarId f = pb.CarId f' /\ now_id s = now_id s'.
Proof.
  intros Hs Hs'. cbn [acknowledgment pb.BookingId].
  rewrite !Sprintf_ack_id. cbn [String.append]. intros Heq.
  injection Heq as Heq.
  assert (forall z, 0 <= z -> dec_Z z = dec_N (Z.to_N z)) as Hdec.
  { intros [|p|p] Hz; [reflexivity | reflexivity | lia]. }
  rewrite (Hdec _ Hs), (Hdec _ Hs') in Heq.
  apply split_at_last_dash in Heq as [Hid Ht]; try apply dec_N_digits.
  split; [exact Hid|]. apply dec_N_inj in Ht. lia.
Qed.

Lemma correlation_id_names_agent_and_time_witness :
  pb.CarId car001 = pb.CarId car001_later
  /\ now_id (all_well 1701532800100) = now_id (kafka_down 1701532800100).
Proof.
  refine (correlation_id_names_agent_and_time (all_well 1701532800100)
            (kafka_down 1701532800100) car001 car001_later _ _ _).
  - vm_compute. discriminate.
  - vm_compute. discriminate.
  - vm_compute. reflexivity.
Defined.


(** *** Reading the event back *)

Lemma integer_of_dec_Z z : integer_of (Json.JNumber (dec_Z z)) = Some z.
Proof.
  assert (dec_Z z = NilZero.string_of_int (Z.to_int z)) as ->.
  { destruct z; reflexivity. }
  cbn [integer_of]. rewrite NilZero.isi.
  - cbn. now rewrite DecimalZ.of_to.
  - destruct z as [|p|p]; cbn; try discriminate.
    intros [= H]. now apply (to_uint_nonnil (Npos p)).
  - destruct z as [|p|p]; cbn; try discriminate.
    intros [= H]. now apply (to_uint_nonnil (Npos p)).
Qed.

(** X11 ([emitToKafka]).  The event read back returns the frame: for an
    identifier without quote, backslash and control character and finite
    numbers, the value of the message is a JSON text whose [car_id] is
    the frame's [CarId], which is also the key of the message, whose
    [timestamp] read as an integer is the frame's [Timestamp], and whose
    [event_type] is [telemetry]. *)
Theorem event_returns_id_and_timestamp (now : Z) (f : pb.CarStatus) :
  Json.plain (pb.CarId f) = true -> finite_frame f = true ->
  exists v,
    Json.parses_to (kafka.Value (telemetry_message now f)) v
    /\ field "car_id" v = Some (Json.JString (pb.CarId f))
    /\ field "car_id" v
       = Some (Json.JString (kafka.Key (telemetry_message now f)))
    /\ field "timestamp" v ≫= integer_of = Some (pb.Timestamp f)
    /\ field "event_type" v = Some (Json.JString "telemetry").
Proof.
  intros Hid Hfin. exists (telemetry_event f).
  split; [now apply EventSpec.event_of_plain_id|].
  repeat split. cbn. apply integer_of_dec_Z.
Qed.

Lemma event_returns_id_and_timestamp_witness :
  exists v,
    Json.parses_to (kafka.Value (telemetry_message 1701532800100 car001)) v
    /\ field "car_id" v = Some (Json.JString (pb.CarId car001))
    /\ field "car_id" v
       = Some (Json.JString
                 (kafka.Key (telemetry_message 1701532800100 car001)))
    /\ field "timestamp" v ≫= integer_of = Some (pb.Timestamp car001)
    /\ field "event_type" v = Some (Json.JString "telemetry").
Proof.
  apply (event_returns_id_and_timestamp 1701532800100 car001);
    vm_compute; reflexivity.
Defined.

End GatewayMore.

(* ================================================================== *)
(** * The live viewer: its loop and its lines *)
(* ================================================================== *)

Module ViewerSpec.
Import Go Fmt Cli MoreSamples.

Lemma below_15_below_20 x : flt x (of_Z 15) = true -> flt x (of_Z 20) = true.
Proof.
  unfold flt, SFltb.
  change (of_Z 15) with (S754_finite false 8444249301319680 (-49)).
  change (of_Z 20) with (S754_finite false 5629499534213120 (-48)).
  destruct x as [[]|[]| |[] m e]; unfold SFcompare;
    try reflexivity; try discriminate.
  destruct (Z.compare_spec e (-49)) as [He|He|He];
    [subst e; reflexivity| |discriminate].
  intros _. destruct (Z.compare_spec e (-48)); [lia|reflexivity|lia].
Qed.


(** X13 ([displayEvent]).  The warning [CRITICAL BATTERY!] is written
    only on a line whose battery is painted in the critical colour and
    whose icon is the red one: a battery below 15 is a battery below
    20. *)
Theorem critical_warning_only_on_critical_lines (event : TelemetryEvent)
    (eventNum : Z) :
  In (Painted criticalColor " ⚠️  CRITICAL BATTERY!")
     (displayEvent event eventNum) ->
  In (Painted criticalColor (batteryText event))
     (displayEvent event eventNum)
  /\ In (Text "🔴") (displayEvent event eventNum).
Proof.
  unfold displayEvent.
  destruct (flt (Battery event) (of_Z 15)) eqn:H15.
  - rewrite (below_15_below_20 _ H15). intros _.
    cbn [app In]. split; repeat (first [left; reflexivity | right]).
  - destruct (flt (Battery event) (of_Z 20)) eqn:H20.
    + intros _.
      cbn [app In]. split; repeat (first [left; reflexivity | right]).
    + destruct (flt (Battery event) (of_Z 50));
        destruct (Z.rem eventNum 10 =? 0); cbn [app In];
        intros H; repeat (destruct H as [H|H]; [discriminate H|]);
        destruct H.
Qed.

Lemma critical_warning_only_on_critical_lines_witness :
  In (Painted criticalColor (batteryText low_event))
     (displayEvent low_event 1)
  /\ In (Text "🔴") (displayEvent low_event 1).
Proof.
  apply (critical_warning_only_on_critical_lines low_event 1).
  vm_compute. repeat (first [left; reflexivity | right]).
Defined.

Section LoopFacts.
Variable Unmarshal : string -> TelemetryEvent + error.

Lemma wrap64_small z : - 2 ^ 63 <= z < 2 ^ 63 -> wrap64 z = z.
Proof.
  intros H. unfold wrap64. rewrite Z.mod_small; lia.
Qed.

Lemma reads_cons s rest :
  reads (s :: rest) = (if is_read s then 1 else 0) + reads rest.
Proof.
  unfold reads. cbn [List.filter]. destruct (is_read s); cbn [length]; lia.
Qed.

Lemma reads_nonneg steps : 0 <= reads steps.
Proof. unfold reads. lia. Qed.

(** The turns before the stop: nothing ends the loop, no statistics are
    printed, and the count goes up by the messages read. *)
Lemma consume_live before rest c :
  forallb live before = true ->
  0 <= c -> c + reads before < 2 ^ 63 ->
  exists acts,
    consume Unmarshal (before ++ rest) c
    = acts ++ consume Unmarshal rest (c + reads before)
    /\ List.filter is_stats acts = [].
Proof.
  revert c. induction before as [|s before IH]; intros c Hlive Hc Hmax.
  - exists []. cbn. unfold reads. cbn. now rewrite Z.add_0_r.
  - cbn [forallb] in Hlive. apply andb_prop in Hlive as [Hs Hlive].
    rewrite reads_cons in Hmax. pose proof (reads_nonneg before) as Hr.
    destruct s as [|[] err|value]; try discriminate Hs.
    + cbn [is_read] in Hmax.
      destruct (IH c Hlive Hc ltac:(lia)) as (acts & Heq & Hst).
      eexists (_ :: acts). cbn [app consume]. rewrite Heq, reads_cons.
      cbn [is_read]. split; [reflexivity|]. cbn. exact Hst.
    + cbn [is_read] in Hmax.
      destruct (IH (c + 1) Hlive ltac:(lia) ltac:(lia))
        as (acts & Heq & Hst).
      cbn [app consume]. cbv zeta.
      rewrite wrap64_small by lia. rewrite Heq, reads_cons.
      cbn [is_read]. rewrite Z.add_assoc.
      destruct (Unmarshal value) as [event|err];
        eexists (_ :: acts); (split; [reflexivity|]); cbn; exact Hst.
Qed.

(** X14 ([main] of the viewer).  When the context is done between two
    reads, the loop prints the statistics once, for the number of
    messages read until then, parsed or not, and does nothing after
    that. *)
Theorem statistics_count_every_message_read
    (before after : list Step) :
  forallb live before = true -> reads before < 2 ^ 63 ->
  exists acts,
    consume Unmarshal (before ++ Cancelled :: after) 0
    = acts ++ [PrintStats (reads before)]
    /\ List.filter is_stats acts = [].
Proof.
  intros Hlive Hmax.
  destruct (consume_live before (Cancelled :: after) 0 Hlive
              ltac:(lia) ltac:(lia)) as (acts & Heq & Hst).
  exists acts. split; [|exact Hst]. rewrite Heq. reflexivity.
Qed.

(** X15 ([main] of the viewer).  When the context is cancelled while
    [ReadMessage] waits, the loop returns without printing the
    statistics. *)
Theorem stop_inside_a_read_prints_no_statistics
    (before after : list Step) (err : error) :
  forallb live before = true -> reads before < 2 ^ 63 ->
  List.filter is_stats
    (consume Unmarshal (before ++ ReadFailed true err :: after) 0) = [].
Proof.
  intros Hlive Hmax.
  destruct (consume_live before (ReadFailed true err :: after) 0 Hlive
              ltac:(lia) ltac:(lia)) as (acts & Heq & Hst).
  rewrite Heq. cbn [consume]. now rewrite app_nil_r.
Qed.

Lemma separator_drawn event n :
  In (Painted hiBlack
        "─────────────────────────────────────────────────────────────────────────")
     (displayEvent event n) <-> Z.rem n 10 = 0.
Proof.
  unfold displayEvent. rewrite <- Z.eqb_eq.
  destruct (flt (Battery event) (of_Z 20));
    [|destruct (flt (Battery event) (of_Z 50))];
    destruct (flt (Battery event) (of_Z 15));
    destruct (Z.rem n 10 =? 0); cbn; split; intros H;
    try reflexivity; try discriminate H; auto 20;
    repeat (destruct H as [H|H]; [discriminate H|]); destruct H.
Qed.

(** X16 ([main] of the viewer, [displayEvent]).  Events are numbered by
    the messages read: the message read as the [n]-th is shown as event
    [n], also when earlier messages did not parse or earlier reads
    failed, and the separator is drawn under it exactly when [n] is a
    multiple of 10; a message that does not parse is logged and the loop
    goes on with the count it has. *)
Theorem events_are_numbered_by_messages_read
    (before after : list Step) (value : string) :
  forallb live before = true -> reads before + 1 < 2 ^ 63 ->
  let n := reads before + 1 in
  exists acts,
    List.filter is_stats acts = []
    /\ match Unmarshal value with
       | inl event =>
           consume Unmarshal (before ++ Read value :: after) 0
           = acts ++ Display event n :: consume Unmarshal after n
           /\ (In (Painted hiBlack
                     "─────────────────────────────────────────────────────────────────────────")
                  (shown (Display event n)) <-> Z.rem n 10 = 0)
       | inr err =>
           consume Unmarshal (before ++ Read value :: after) 0
           = acts ++ LogLine ("Failed to parse event: " +:+ Error err)
                  :: consume Unmarshal after n
       end.
Proof.
  intros Hlive Hmax n. subst n.
  pose proof (reads_nonneg before) as Hr.
  destruct (consume_live before (Read value :: after) 0 Hlive
              ltac:(lia) ltac:(lia)) as (acts & Heq & Hst).
  exists acts. split; [exact Hst|]. rewrite Heq. cbn [consume]. cbv zeta.
  rewrite wrap64_small by lia. cbn [Z.add].
  destruct (Unmarshal value) as [event|err].
  - split; [reflexivity | apply separator_drawn].
  - do 2 f_equal. cbn. now rewrite FmtFacts.append_empty.
Qed.

End LoopFacts.

Lemma statistics_count_every_message_read_witness :
  exists acts,
    consume decode (turns ++ Cancelled :: [Read "low"]) 0
    = acts ++ [PrintStats 3]
    /\ List.filter is_stats acts = [].
Proof.
  apply (statistics_count_every_message_read decode turns [Read "low"]);
    vm_compute; reflexivity.
Defined.

Lemma stop_inside_a_read_prints_no_statistics_witness :
  List.filter is_stats
    (consume decode (turns ++ ReadFailed true broker_restart :: []) 0) = [].
Proof.
  apply (stop_inside_a_read_prints_no_statistics decode turns []
           broker_restart);
    vm_compute; reflexivity.
Defined.

Lemma events_are_numbered_by_messages_read_witness :
  exists acts,
    List.filter is_stats acts = []
    /\ consume decode ([Read "low"; Read "garbage"] ++ Read "full" :: []) 0
       = acts ++ Display full_event 3 :: consume decode [] 3.
Proof.
  destruct (events_are_numbered_by_messages_read decode
              [Read "low"; Read "garbage"] [] "full" eq_refl eq_refl)
    as (acts & Hst & Hm).
  exists acts. split; [exact Hst | exact (proj1 Hm)].
Defined.

End ViewerSpec.

(* ================================================================== *)
(** * Decimal texts: what [%.pf] prints reads back *)
(* ================================================================== *)

Module FixedPointFacts.
Import Go Fmt FixedPoint Render JsonFacts FmtFacts.

Lemma dec_N_digits' n : all_digits (dec_N n) = true.
Proof.
  destruct (dec_N_shape n) as [->|(c & ds & -> & Hc & _ & Hds)];
    [reflexivity|]. cbn. now rewrite Hc, Hds.
Qed.

Lemma digits_value_app a b acc :
  digits_value (a +:+ b) acc = digits_value b (digits_value a acc).
Proof.
  revert acc. induction a as [|c a IH]; intros acc; cbn; [reflexivity|].
  apply IH.
Qed.

Lemma digit_value n : (N_of_ascii (digit n) - 48 = n mod 10)%N.
Proof.
  unfold digit. pose proof (N.mod_lt n 10 ltac:(discriminate)) as H.
  revert H. generalize (n mod 10)%N. intros m H.
  rewrite N_ascii_embedding by lia. lia.
Qed.

Lemma low_digits_value k n acc :
  digits_value (low_digits k n) acc
  = (acc * 10 ^ N.of_nat k + n mod 10 ^ N.of_nat k)%N.
Proof.
  revert n acc. induction k as [|k IH]; intros n acc.
  - cbn. rewrite N.mod_1_r. lia.
  - cbn [low_digits]. rewrite digits_value_app, IH. cbn [digits_value].
    rewrite digit_value. rewrite Nat2N.inj_succ, N.pow_succ_r'.
    rewrite N.Div0.mod_mul_r.
    generalize ((n / 10) mod 10 ^ N.of_nat k)%N (n mod 10)%N
               (10 ^ N.of_nat k)%N.
    intros a b c. lia.
Qed.


Lemma digits_value_acc d acc :
  digits_value (NilEmpty.string_of_uint d) (Npos acc)
  = Npos (Pos.of_uint_acc d acc).
Proof.
  revert acc. induction d; intros acc; cbn [NilEmpty.string_of_uint
    digits_value Pos.of_uint_acc]; [reflexivity|..];
    rewrite <- IHd; f_equal;
    match goal with
    | |- context [(N_of_ascii ?c - 48)%N] =>
        let v := eval vm_compute in (N_of_ascii c - 48)%N in
        change (N_of_ascii c - 48)%N with v
    end; lia.
Qed.

Lemma digits_value_uint d :
  digits_value (NilEmpty.string_of_uint d) 0 = N.of_uint d.
Proof.
  induction d; cbn [NilEmpty.string_of_uint digits_value];
    try (change (10 * 0 + (N_of_ascii _ - 48))%N with 0%N; exact IHd);
    try reflexivity;
    apply digits_value_acc.
Qed.

Lemma dec_N_value q : digits_value (dec_N q) 0 = q.
Proof.
  unfold dec_N. pose proof (DecimalN.Unsigned.of_to q) as H.
  destruct (N.to_uint q) eqn:E; cbn [NilZero.string_of_uint];
    try (rewrite <- H; apply (digits_value_uint _)).
  rewrite <- H. reflexivity.
Qed.


Lemma at_point_digits i f :
  all_digits i = true -> at_point (i +:+ String "." f) = (i, Some f).
Proof.
  induction i as [|c i IH]; cbn [all_digits String.append at_point];
    intros H.
  - reflexivity.
  - apply andb_prop in H as [Hc Hi].
    destruct (digit_char c Hc) as (_ & _ & _ & _ & _ & ->).
    now rewrite (IH Hi).
Qed.

Lemma length_append a b :
  String.length (a +:+ b) = (String.length a + String.length b)%nat.
Proof. induction a as [|c a IH]; cbn; [reflexivity | now rewrite IH]. Qed.

Lemma low_digits_length k n : String.length (low_digits k n) = k.
Proof.
  revert n. induction k as [|k IH]; intros n; cbn; [reflexivity|].
  rewrite length_append, IH. cbn. lia.
Qed.

(** The text of [%.pf], [p > 0], read back: its sign and its digits. *)
Lemma read_fixed_fixed (s : bool) k n :
  read_fixed (sign s +:+ fixed (S k) n) = Some (s, n, S k).
Proof.
  unfold fixed. set (p := N.of_nat (S k)).
  set (q := (n / 10 ^ p)%N). set (r := (n mod 10 ^ p)%N).
  assert (Hbody :
    match at_point (dec_N q +:+ String "." (low_digits (S k) r)) with
    | (i, Some f) =>
        if all_digits i && all_digits f && negb (String.eqb i EmptyString)
        then Some (s, digits_value (i +:+ f) 0, String.length f)
        else None
    | (i, None) =>
        if all_digits i && negb (String.eqb i EmptyString)
        then Some (s, digits_value i 0, O)
        else None
    end = Some (s, n, S k)).
  { rewrite at_point_digits by apply dec_N_digits'.
    rewrite dec_N_digits', low_digits_digits.
    destruct (dec_N_first q) as (c0 & d & Hq & _).
    rewrite Hq at 1. cbn [String.eqb negb andb].
    rewrite digits_value_app, dec_N_value, low_digits_value.
    rewrite low_digits_length. subst r. fold p.
    rewrite N.Div0.mod_mod. do 3 f_equal. subst q.
    rewrite N.mul_comm. symmetry. apply N.div_mod'. }
  unfold read_fixed. destruct s; cbn [sign String.append].
  - cbn [Ascii.eqb Bool.eqb]. exact Hbody.
  - destruct (dec_N_first q) as (c0 & d & Hq & Hc0).
    destruct (digit_char c0 Hc0) as (_ & _ & _ & _ & Hminus & _).
    rewrite Hq in *. cbn [String.append] in *. rewrite Hminus. exact Hbody.
Qed.

Lemma round_half_even_close num den :
  (0 < den)%N ->
  Z.abs (2 * Z.of_N (round_half_even num den) * Z.of_N den
         - 2 * Z.of_N num) <= Z.of_N den.
Proof.
  intros Hden. unfold round_half_even.
  pose proof (N.div_mod' num den) as Hdm.
  pose proof (N.mod_lt num den ltac:(lia)) as Hlt.
  revert Hdm Hlt. generalize (num / den)%N (num mod den)%N. intros q r Hdm Hlt.
  destruct (N.compare_spec (2 * r) den) as [Heq|Hc|Hc];
    [destruct (N.even q)|..]; nia.
Qed.


Lemma fmtFloat_nearest k x :
  is_finite x = true ->
  exists neg n,
    read_fixed (fmtFloat (S k) x) = Some (neg, n, S k)
    /\ nearest_decimal x neg n (S k).
Proof.
  destruct x as [s|s| |s m e]; try discriminate; intros _;
    cbn [fmtFloat]; eexists _, _; (split; [apply read_fixed_fixed|]).
  - split; reflexivity.
  - cbn [nearest_decimal]. split; [reflexivity|].
    unfold scaled. destruct e as [|j|j].
    + rewrite N2Z.inj_mul, N2Z.inj_pow, nat_N_Z. cbn [Z.pow]. lia.
    + rewrite !N2Z.inj_mul, !N2Z.inj_pow, nat_N_Z. cbn [Z.of_N]. lia.
    + pose proof (round_half_even_close (N.pos m * 10 ^ N.of_nat (S k))
                    (2 ^ N.pos j)) as H.
      rewrite !N2Z.inj_mul, !N2Z.inj_pow, nat_N_Z in H. cbn [Z.of_N] in H.
      rewrite Z.mul_assoc in H. apply H.
      apply N.neq_0_lt_0. apply N.pow_nonzero. discriminate.
Qed.

End FixedPointFacts.

(* ================================================================== *)
(** * The event: its numbers *)
(* ================================================================== *)

Module EventMore.
Import Go Fmt Json Ingestion Observe Samples Session FixedPoint
  FixedPointFacts.

(** X17 ([emitToKafka]).  The numbers of the event are the nearest
    decimals: for a plain identifier and finite numbers, [lat] and [lon]
    are written with six digits after the point and [battery] and
    [velocity] with two, and each, read back, is at most half a unit of
    its last digit away from the frame's value. *)
Theorem event_numbers_are_nearest_decimals (now : Z) (f : pb.CarStatus) :
  plain (pb.CarId f) = true -> finite_frame f = true ->
  exists v,
    parses_to (kafka.Value (telemetry_message now f)) v
    /\ carries v "lat" (pb.Latitude f) 6
    /\ carries v "lon" (pb.Longitude f) 6
    /\ carries v "battery" (pb.BatteryLevel f) 2
    /\ carries v "velocity" (pb.Velocity f) 2.
Proof.
  intros Hid Hfin. exists (telemetry_event f).
  split; [now apply EventSpec.event_of_plain_id|].
  unfold finite_frame in Hfin.
  apply andb_prop in Hfin as [Hfin Hv]. apply andb_prop in Hfin as [Hfin Hb].
  apply andb_prop in Hfin as [Hla Hlo].
  repeat split.
  - destruct (fmtFloat_nearest 5 _ Hla) as (neg & n & Hr & Hn).
    exists (fmtFloat 6 (pb.Latitude f)), neg, n. now repeat split.
  - destruct (fmtFloat_nearest 5 _ Hlo) as (neg & n & Hr & Hn).
    exists (fmtFloat 6 (pb.Longitude f)), neg, n. now repeat split.
  - destruct (fmtFloat_nearest 1 _ Hb) as (neg & n & Hr & Hn).
    exists (fmtFloat 2 (pb.BatteryLevel f)), neg, n. now repeat split.
  - destruct (fmtFloat_nearest 1 _ Hv) as (neg & n & Hr & Hn).
    exists (fmtFloat 2 (pb.Velocity f)), neg, n. now repeat split.
Qed.

Lemma event_numbers_are_nearest_decimals_witness :
  exists v,
    parses_to (kafka.Value (telemetry_message 1701532800100 car001)) v
    /\ carries v "lat" (pb.Latitude car001) 6
    /\ carries v "lon" (pb.Longitude car001) 6
    /\ carries v "battery" (pb.BatteryLevel car001) 2
    /\ carries v "velocity" (pb.Velocity car001) 2.
Proof.
  apply (event_numbers_are_nearest_decimals 1701532800100 car001);
    vm_compute; reflexivity.
Defined.

End EventMore.
